(** * The Zhihu API client: signed transport and paginated comment walks

    A shallow embedding of [media_platform/zhihu/client.py] (class
    [ZhiHuClient]).  The client is effectful: it signs URLs, talks to the
    network through httpx, sleeps, and hands pages of comments to a callback.
    The embedding is a state monad with exceptions that also records every
    effect in a trace; the [while] loops of the two walks take fuel. *)

From Stdlib Require Import ZArith QArith Ascii String.
From stdpp Require Import base gmap strings list pretty.

Set Warnings "-register-all".
Open Scope string_scope.
Open Scope list_scope.

(** ** Python values *)

(** What [response.json()] yields.  A dict is an association list in
    insertion order (its keys are distinct); [JNull] is Python's [None]. *)
Inductive json : Type :=
| JNull
| JBool (b : bool)
| JNum (z : Z)
| JStr (s : string)
| JList (l : list json)
| JDict (d : list (string * json)).

(** Python truthiness, as [if x:] and [while not x:] use it. *)
Definition py_truthy (v : json) : bool :=
  match v with
  | JNull => false
  | JBool b => b
  | JNum z => negb (z =? 0)%Z
  | JStr s => negb (String.eqb s "")
  | JList l => match l with [] => false | _ => true end
  | JDict d => match d with [] => false | _ => true end
  end.

Fixpoint assoc (k : string) (d : list (string * json)) : option json :=
  match d with
  | [] => None
  | (k', v) :: d' => if String.eqb k k' then Some v else assoc k d'
  end.

(** The exceptions the client can see. *)
Inductive exn : Type :=
| Exception (msg : string)
| ForbiddenError (body : string)
| DataFetchError (msg : json)
| KeyError (key : string)
| AttributeError
| ForeignError (what : string)   (* raised inside httpx, the signer or the sink *)
| RetryError (last : exn).       (* tenacity, once the attempts are used up *)

(** [x.get(k, default)]: only a dict has [get]. *)
Definition py_get (v : json) (k : string) (default : json) : exn + json :=
  match v with
  | JDict d => inr (match assoc k d with Some x => x | None => default end)
  | _ => inl AttributeError
  end.

(** A value of a query parameter, and [str] of it. *)
Inductive pyatom : Type :=
| PStr (s : string)
| PInt (z : Z).

Definition py_str (a : pyatom) : string :=
  match a with
  | PStr s => s
  | PInt z => pretty z
  end.

(** ** [urllib.parse.urlencode]

    Strings are byte strings (UTF-8).  [quote_plus] keeps the unreserved
    bytes, turns a space into [+] and writes any other byte as [%XX]. *)
Definition always_safe (c : ascii) : bool :=
  let n := N_of_ascii c in
  ((65 <=? n) && (n <=? 90) || (97 <=? n) && (n <=? 122)
   || (48 <=? n) && (n <=? 57)
   || (n =? 95) || (n =? 46) || (n =? 45) || (n =? 126))%N.

Definition hex_digit (n : N) : ascii :=
  ascii_of_N (if (n <? 10)%N then 48 + n else 55 + n)%N.

Definition quote_plus_byte (c : ascii) : string :=
  let n := N_of_ascii c in
  if always_safe c then String c ""
  else if (n =? 32)%N then "+"
  else String "%" (String (hex_digit (n / 16)) (String (hex_digit (n mod 16)) "")).

Fixpoint quote_plus (s : string) : string :=
  match s with
  | "" => ""
  | String c s' => quote_plus_byte c +:+ quote_plus s'
  end.

Fixpoint join_amp (l : list string) : string :=
  match l with
  | [] => ""
  | [x] => x
  | x :: l' => x +:+ "&" +:+ join_amp l'
  end.

Definition urlencode (params : list (string * pyatom)) : string :=
  join_amp (map (fun kv => quote_plus (fst kv) +:+ "=" +:+ quote_plus (py_str (snd kv))) params).

(** ** Domain objects *)

(** Modelled from the spec: [model/m_zhihu.py] is not part of the sources at
    hand.  A content item carries the id and the type that the comment
    endpoints need. *)
Record ZhihuContent : Type := {
  content_id : string;
  content_type : string
}.

(** Modelled from the spec: [model/m_zhihu.py] is not part of the sources at
    hand.  A comment carries its id and the number of replies under it. *)
Record ZhihuComment : Type := {
  comment_id : string;
  sub_comment_count : Z
}.

(** ** The network and the trace *)

Record response : Type := {
  status_code : Z;
  text : string;
  json_body : option json    (* [response.json()]; [None]: JSONDecodeError *)
}.

(** What one [client.request] comes back with: httpx raises, or a response. *)
Inductive http_result : Type :=
| HttpRaise (e : exn)
| HttpResponse (r : response).

(** Every effect of the client, in the order it happens.  The events of the
    child walk that the root walk awaits are kept together in one
    [EvSubWalk] node.  [EvCallback] also records the walk's accumulator as
    it is when the sink is called. *)
Inductive event : Type :=
| EvSign (url cookie : string)
| EvHttp (method url : string) (headers : gmap string string) (res : http_result)
| EvRetryWait (seconds : Z)
| EvCallback (comments acc : list ZhihuComment)
| EvSleep (delay : Q)
| EvSubWalk (evs : list event).

(** ** The client's state

    Header dicts are objects on a heap, so that sharing between
    [self.default_headers] and the headers of a request is visible.
    [sent] counts the HTTP exchanges made so far.  The [timeout] and
    [proxies] fields only reach httpx and are left to the network. *)
Record state : Type := {
  heap : list (gmap string string);
  default_headers : nat;
  cookie_dict : gmap string string;
  sent : nat
}.

Definition set_heap (h : list (gmap string string)) (st : state) : state :=
  {| heap := h; default_headers := default_headers st;
     cookie_dict := cookie_dict st; sent := sent st |}.

Definition incr_sent (st : state) : state :=
  {| heap := heap st; default_headers := default_headers st;
     cookie_dict := cookie_dict st; sent := S (sent st) |}.

(** ** The monad: state, exceptions, a trace, and fuel *)

Inductive outcome (A : Type) : Type :=
| Return (a : A)
| Raise (e : exn)
| OutOfFuel.
Arguments Return {A} a.
Arguments Raise {A} e.
Arguments OutOfFuel {A}.

Definition M (A : Type) : Type := state -> outcome A * state * list event.

Definition ret {A} (a : A) : M A := fun st => (Return a, st, []).

Definition bind {A B} (m : M A) (k : A -> M B) : M B :=
  fun st =>
    match m st with
    | (Return a, st1, t1) =>
        match k a st1 with
        | (r, st2, t2) => (r, st2, t1 ++ t2)
        end
    | (Raise e, st1, t1) => (Raise e, st1, t1)
    | (OutOfFuel, st1, t1) => (OutOfFuel, st1, t1)
    end.

Notation "'do' x <- m ; k" := (bind m (fun x => k))
  (at level 10, x name, m at level 100, k at level 200,
   format "'[v' 'do'  x  <-  m ; '/' k ']'").

Definition raise {A} (e : exn) : M A := fun st => (Raise e, st, []).
Definition out_of_fuel {A} : M A := fun st => (OutOfFuel, st, []).
Definition emit (e : event) : M unit := fun st => (Return tt, st, [e]).

(** Lift a pure step that may raise. *)
Definition lift {A} (x : exn + A) : M A :=
  match x with
  | inl e => raise e
  | inr a => ret a
  end.

(** Run [m] and keep its events as one node of the trace. *)
Definition in_sub_walk {A} (m : M A) : M A :=
  fun st =>
    match m st with
    | (r, st1, t) => (r, st1, [EvSubWalk t])
    end.

(** Heap operations on dict objects. *)
Definition dict_getitem (l : nat) (k : string) : M string :=
  fun st =>
    match (heap st !!! l) !! k with
    | Some v => (Return v, st, [])
    | None => (Raise (KeyError k), st, [])
    end.

Definition dict_copy (l : nat) : M nat :=
  fun st => (Return (length (heap st)), set_heap (heap st ++ [heap st !!! l]) st, []).

Definition dict_setitem (l : nat) (k v : string) : M unit :=
  fun st => (Return tt, set_heap (<[l := <[k := v]> (heap st !!! l)]> (heap st)) st, []).

(** [@retry(stop=stop_after_attempt(n), wait=wait_fixed(w))] of tenacity with
    its defaults: every exception of an attempt is retried; between two
    attempts it sleeps [w]; once the attempts are used up it raises
    [RetryError] around the last exception ([reraise] is off).  [more] is
    the number of attempts still allowed after the next one. *)
Fixpoint retrying {A} (more : nat) (w : Z) (attempt : M A) : M A :=
  fun st =>
    match attempt st with
    | (Raise e, st1, t1) =>
        match more with
        | O => (Raise (RetryError e), st1, t1)
        | S more' =>
            match retrying more' w attempt st1 with
            | (r, st2, t2) => (r, st2, t1 ++ EvRetryWait w :: t2)
            end
        end
    | other => other
    end.

Definition stop_after_attempt (n : nat) : nat := pred n.

(** ** A mocked session, used to run the client on concrete inputs *)

Module Fixture.

Definition mock_sign (url cookie : string) : exn + gmap string string :=
  inr (<["x-zse-96" := "2.0_signature"]> {["x-zst-81" := "3_2.0"]}).

Definition failing_sign (url cookie : string) : exn + gmap string string :=
  inl (ForeignError "sign failed").

Definition mock_extract_offset (paging_info : json) : string :=
  match py_get paging_info "offset" JNull with
  | inr (JStr s) => s
  | _ => ""
  end.

Definition mock_comment (j : json) : option ZhihuComment :=
  match py_get j "id" JNull, py_get j "child_comment_count" JNull with
  | inr (JStr i), inr (JNum n) => Some {| comment_id := i; sub_comment_count := n |}
  | inr (JStr i), _ => Some {| comment_id := i; sub_comment_count := 0 |}
  | _, _ => None
  end.

Definition mock_extract_comments (content : ZhihuContent) (data : json)
    : list ZhihuComment :=
  match data with
  | JList l => omap mock_comment l
  | _ => []
  end.

(** A scripted network: the n-th exchange gets the n-th entry, and a
    connection error once the script is used up. *)
Definition script (l : list http_result) (n : nat) : http_result :=
  nth n l (HttpRaise (ForeignError "ConnectError")).

Definition ok (body : json) : http_result :=
  HttpResponse {| status_code := 200; text := "<json>"; json_body := Some body |}.

Definition status (code : Z) (body : string) : http_result :=
  HttpResponse {| status_code := code; text := body; json_body := None |}.

Definition raw_comment (id : string) (replies : Z) : json :=
  JDict [("id", JStr id); ("child_comment_count", JNum replies)].

Definition page (ids : list string) (offset : string) (is_end : bool) : json :=
  JDict [("data", JList (map (fun i => raw_comment i 0) ids));
         ("paging", JDict [("offset", JStr offset); ("is_end", JBool is_end)])].

Definition c (id : string) : ZhihuComment :=
  {| comment_id := id; sub_comment_count := 0 |}.

Definition base_headers : gmap string string :=
  <["cookie" := "d_c0=abc"]> {["user-agent" := "Mozilla/5.0"]}.

Definition st0 : state :=
  {| heap := [base_headers]; default_headers := 0;
     cookie_dict := {["d_c0" := "abc"]}; sent := 0 |}.

Definition st_no_d_c0 : state :=
  {| heap := [base_headers]; default_headers := 0;
     cookie_dict := {["z_c0" := "xyz"]}; sent := 0 |}.

Definition answer : ZhihuContent :=
  {| content_id := "42"; content_type := "answer" |}.

Definition two_pages : list http_result :=
  [ok (page ["c1"; "c2"] "o1" false); ok (page ["c3"] "o2" true)].

Definition URL : string := "https://www.zhihu.com".

Definition root_get (offset : string) : string * string :=
  ("GET", "https://www.zhihu.com/api/v4/answers/42/root_comments?order=sort&offset="
          +:+ offset +:+ "&limit=10").

Definition three_403 : list http_result :=
  [status 403 "blocked"; status 403 "blocked again"; status 403 "still blocked"].

Definition with_replies : list ZhihuComment :=
  [{| comment_id := "p1"; sub_comment_count := 2 |};
   {| comment_id := "p2"; sub_comment_count := 0 |}].

Definition user_payload : json :=
  JDict [("uid", JStr "u1"); ("name", JStr "alice")].

Definition parent_p1 : ZhihuComment := {| comment_id := "p1"; sub_comment_count := 2 |}.
Definition parent_p2 : ZhihuComment := {| comment_id := "p2"; sub_comment_count := 0 |}.

(** A root page whose first comment has two replies. *)
Definition root_page_with_replies : json :=
  JDict [("data", JList [raw_comment "p1" 2; raw_comment "p2" 0]);
         ("paging", JDict [("offset", JStr "o1"); ("is_end", JBool true)])].

Definition replies_1 : json := page ["r1"] "co1" false.
Definition replies_2 : json := page ["r2"] "co2" true.

Definition replies_plan : list (ZhihuComment * list json * json) :=
  [(parent_p1, [replies_1], replies_2); (parent_p2, [], JNull)].

Definition failing_sink (cs : list ZhihuComment) : option exn :=
  Some (ForeignError "sink failed").

Definition child_get (id offset : string) : string * string :=
  ("GET", "https://www.zhihu.com/api/v4/comment_v5/comment/" +:+ id
          +:+ "/child_comment?order=sort&offset=" +:+ offset +:+ "&limit=10").

End Fixture.

(** ** The client *)

Section Client.

(** [constant/zhihu.py], [config], [help.py] and the network are outside
    the sources at hand and are taken as they come. *)
Variable ZHIHU_URL : string.
Variable ENABLE_GET_SUB_COMMENTS : bool.
(** [sign(url, cookie)]: raises, or returns a dict of signature headers. *)
Variable sign : string -> string -> exn + gmap string string.
(** [ZhiHuJsonExtractor.extract_offset] and [extract_comments]. *)
Variable extract_offset : json -> string.
Variable extract_comments : ZhihuContent -> json -> list ZhihuComment.
(** The outcome of the n-th HTTP exchange of the run. *)
Variable net : nat -> http_result.

Definition call_sign (url cookie : string) : M (gmap string string) :=
  fun st =>
    (match sign url cookie with inl e => Raise e | inr d => Return d end,
     st, [EvSign url cookie]).

Definition sign_getitem (d : gmap string string) (k : string) : M string :=
  match d !! k with
  | Some v => ret v
  | None => raise (KeyError k)
  end.

Definition _pre_headers (url : string) : M nat :=
  fun st =>
    match cookie_dict st !! "d_c0" with
    | None | Some "" => raise (Exception "d_c0 not found in cookies") st
    | Some _ =>
        (do cookie <- dict_getitem (default_headers st) "cookie" ;
         do sign_res <- call_sign url cookie ;
         do headers <- dict_copy (default_headers st) ;
         do zst <- sign_getitem sign_res "x-zst-81" ;
         do _ <- dict_setitem headers "x-zst-81" zst ;
         do zse <- sign_getitem sign_res "x-zse-96" ;
         do _ <- dict_setitem headers "x-zse-96" zse ;
         ret headers) st
    end.

(** Lines 76 to 95 of [request]: what a response is turned into. *)
Definition interpret (return_response : bool) (r : response) : exn + json :=
  if negb (status_code r =? 200)%Z then
    if (status_code r =? 403)%Z then inl (ForbiddenError (text r))
    else if (status_code r =? 404)%Z then inr (JDict [])
    else inl (DataFetchError (JStr (text r)))
  else if return_response then inr (JStr (text r))
  else
    match json_body r with
    | None => inl (DataFetchError (JStr (text r)))
    | Some data =>
        match py_get data "error" JNull with
        | inl e => inl e
        | inr err =>
            if py_truthy err then
              match py_get err "message" JNull with
              | inl e => inl e
              | inr msg => inl (DataFetchError msg)
              end
            else inr data
        end
    end.

(** One attempt of [request]: the exchange with the network, then the
    reading of the response. *)
Definition request_attempt (method url : string) (headers : nat)
    (return_response : bool) : M json :=
  fun st =>
    let res := net (sent st) in
    (match res with
     | HttpRaise e => Raise e
     | HttpResponse r =>
         match interpret return_response r with
         | inl e => Raise e
         | inr v => Return v
         end
     end,
     incr_sent st,
     [EvHttp method url (heap st !!! headers) res]).

Definition request (method url : string) (headers : nat)
    (return_response : bool) : M json :=
  retrying (stop_after_attempt 3) 1 (request_attempt method url headers return_response).

Definition get (uri : string) (params : option (list (string * pyatom))) : M json :=
  let final_uri :=
    match params with
    | Some ps => uri +:+ "?" +:+ urlencode ps
    | None => uri
    end in
  do headers <- _pre_headers final_uri ;
  request "GET" (ZHIHU_URL +:+ final_uri) headers false.

Definition root_comments_uri (content_id content_type : string) : string :=
  "/api/v4/" +:+ content_type +:+ "s/" +:+ content_id +:+ "/root_comments".

Definition child_comments_uri (root_comment_id : string) : string :=
  "/api/v4/comment_v5/comment/" +:+ root_comment_id +:+ "/child_comment".

Definition page_params (offset : string) (limit : Z) (order_by : string)
    : list (string * pyatom) :=
  [("order", PStr order_by); ("offset", PStr offset); ("limit", PInt limit)].

Definition get_root_comments (content_id content_type offset : string)
    (limit : Z) (order_by : string) : M json :=
  get (root_comments_uri content_id content_type)
      (Some (page_params offset limit order_by)).

Definition get_child_comments (root_comment_id offset : string)
    (limit : Z) (order_by : string) : M json :=
  get (child_comments_uri root_comment_id)
      (Some (page_params offset limit order_by)).

(** [if callback: await callback(comments)].  The sink returns, or raises. *)
Definition call_callback (callback : option (list ZhihuComment -> option exn))
    (comments acc : list ZhihuComment) : M unit :=
  match callback with
  | None => ret tt
  | Some cb =>
      fun st =>
        (match cb comments with None => Return tt | Some e => Raise e end,
         st, [EvCallback comments acc])
  end.

Definition sleep (delay : Q) : M unit := emit (EvSleep delay).

(** The [while not is_end] loop of [get_comments_all_sub_comments] for one
    parent comment; it returns [all_sub_comments] as the loop leaves it. *)
Fixpoint child_loop (fuel : nat) (content : ZhihuContent)
    (parment_comment : ZhihuComment) (crawl_interval : Q)
    (callback : option (list ZhihuComment -> option exn))
    (all_sub_comments : list ZhihuComment) (is_end : json) (offset : string)
    {struct fuel} : M (list ZhihuComment) :=
  if py_truthy is_end then ret all_sub_comments
  else
    match fuel with
    | O => out_of_fuel
    | S fuel' =>
        do child_comment_res <- get_child_comments (comment_id parment_comment) offset 10 "sort" ;
        if negb (py_truthy child_comment_res) then ret all_sub_comments
        else
          do paging_info <- lift (py_get child_comment_res "paging" (JDict [])) ;
          do is_end' <- lift (py_get paging_info "is_end" JNull) ;
          let offset' := extract_offset paging_info in
          do data <- lift (py_get child_comment_res "data" JNull) ;
          let sub_comments := extract_comments content data in
          match sub_comments with
          | [] => ret all_sub_comments
          | _ :: _ =>
              do _ <- call_callback callback sub_comments all_sub_comments ;
              do _ <- sleep crawl_interval ;
              child_loop fuel' content parment_comment crawl_interval callback
                (all_sub_comments ++ sub_comments) is_end' offset'
          end
    end.

(** The [for parment_comment in comments] loop. *)
Fixpoint child_for (fuel : nat) (content : ZhihuContent)
    (comments : list ZhihuComment) (crawl_interval : Q)
    (callback : option (list ZhihuComment -> option exn))
    (all_sub_comments : list ZhihuComment) {struct comments}
    : M (list ZhihuComment) :=
  match comments with
  | [] => ret all_sub_comments
  | parment_comment :: rest =>
      if (sub_comment_count parment_comment =? 0)%Z then
        child_for fuel content rest crawl_interval callback all_sub_comments
      else
        do all_sub_comments' <- child_loop fuel content parment_comment
                                  crawl_interval callback all_sub_comments (JBool false) "" ;
        child_for fuel content rest crawl_interval callback all_sub_comments'
  end.

Definition get_comments_all_sub_comments (fuel : nat) (content : ZhihuContent)
    (comments : list ZhihuComment) (crawl_interval : Q)
    (callback : option (list ZhihuComment -> option exn)) : M (list ZhihuComment) :=
  if negb ENABLE_GET_SUB_COMMENTS then ret []
  else child_for fuel content comments crawl_interval callback [].

(** The [while not is_end] loop of [get_note_all_comments]. *)
Fixpoint root_loop (fuel : nat) (content : ZhihuContent) (crawl_interval : Q)
    (callback : option (list ZhihuComment -> option exn))
    (result : list ZhihuComment) (is_end : json) (offset : string)
    {struct fuel} : M (list ZhihuComment) :=
  if py_truthy is_end then ret result
  else
    match fuel with
    | O => out_of_fuel
    | S fuel' =>
        do root_comment_res <- get_root_comments (content_id content) (content_type content)
                                 offset 10 "sort" ;
        if negb (py_truthy root_comment_res) then ret result
        else
          do paging_info <- lift (py_get root_comment_res "paging" (JDict [])) ;
          do is_end' <- lift (py_get paging_info "is_end" JNull) ;
          let offset' := extract_offset paging_info in
          do data <- lift (py_get root_comment_res "data" JNull) ;
          let comments := extract_comments content data in
          match comments with
          | [] => ret result
          | _ :: _ =>
              do _ <- call_callback callback comments result ;
              do _ <- in_sub_walk (get_comments_all_sub_comments fuel' content comments
                                     crawl_interval callback) ;
              do _ <- sleep crawl_interval ;
              root_loop fuel' content crawl_interval callback
                (result ++ comments) is_end' offset'
          end
    end.

Definition get_note_all_comments (fuel : nat) (content : ZhihuContent)
    (crawl_interval : Q) (callback : option (list ZhihuComment -> option exn))
    : M (list ZhihuComment) :=
  root_loop fuel content crawl_interval callback [] (JBool false) "".

(** ** The rest of the client: the session and the search *)

(** [ZhiHuJsonExtractor.extract_contents], from [help.py]. *)
Variable extract_contents : json -> list ZhihuContent.

(** [try: m except Exception as e: handler e]. *)
Definition try_except {A} (m : M A) (handler : exn -> M A) : M A :=
  fun st =>
    match m st with
    | (Raise e, st1, t1) =>
        match handler e st1 with
        | (r, st2, t2) => (r, st2, t1 ++ t2)
        end
    | other => other
    end.

Definition get_current_user_info : M json :=
  get "/api/v4/me" (Some [("include", PStr "email,is_active,is_bind_phone")]).

(** [res.get("uid") and res.get("name")] decides the flag; any exception
    on the way makes it [False]. *)
Definition pong : M bool :=
  try_except
    (do res <- get_current_user_info ;
     do uid <- lift (py_get res "uid" JNull) ;
     if py_truthy uid then
       do name <- lift (py_get res "name" JNull) ;
       ret (py_truthy name)
     else ret false)
    (fun _ => ret false).

Definition set_cookie_dict (d : gmap string string) (st : state) : state :=
  {| heap := heap st; default_headers := default_headers st;
     cookie_dict := d; sent := sent st |}.

(** [update_cookies]: [cookie_str] and [new_cookie_dict] are what
    [utils.convert_cookies] made of the cookies of the browser context.
    The cookie string is written into the shared default headers, and
    [self.cookie_dict] is bound to the new dict. *)
Definition update_cookies (cookie_str : string) (new_cookie_dict : gmap string string)
    : M unit :=
  fun st =>
    (do _ <- dict_setitem (default_headers st) "cookie" cookie_str ;
     fun st1 => (Return tt, set_cookie_dict new_cookie_dict st1, [])) st.

(** [get_note_by_keyword]: [sort], [note_type] and [search_time] stand for
    the [value] of the enum member passed ([field.py]). *)
Definition search_params (keyword : string) (page page_size : Z)
    (sort note_type search_time : string) : list (string * pyatom) :=
  [("gk_version", PStr "gz-gaokao");
   ("t", PStr "general");
   ("q", PStr keyword);
   ("correction", PInt 1);
   ("offset", PInt ((page - 1) * page_size));
   ("limit", PInt page_size);
   ("filter_fields", PStr "");
   ("lc_idx", PInt ((page - 1) * page_size));
   ("show_all_topics", PInt 0);
   ("search_source", PStr "Filter");
   ("time_interval", PStr search_time);
   ("sort", PStr sort);
   ("vertical", PStr note_type)].

Definition get_note_by_keyword (keyword : string) (page page_size : Z)
    (sort note_type search_time : string) : M (list ZhihuContent) :=
  do search_res <- get "/api/v4/search_v3"
                     (Some (search_params keyword page page_size sort note_type search_time)) ;
  ret (extract_contents search_res).

(** The headers of a signed request: the defaults and the two signature
    headers on top. *)
Definition signed (st : state) (zst zse : string) : gmap string string :=
  <["x-zse-96" := zse]> (<["x-zst-81" := zst]> (heap st !!! default_headers st)).

Definition with_headers (h : gmap string string) (st : state) : state :=
  set_heap (heap st ++ [h]) st.


(** The outcome of one attempt of [request], given what the network
    answered. *)
Definition attempt_outcome (rr : bool) (res : http_result) : outcome json :=
  match res with
  | HttpRaise e => Raise e
  | HttpResponse r =>
      match interpret rr r with
      | inl e => Raise e
      | inr v => Return v
      end
  end.

(** ** Reading a trace

    The projections below look at the events of one walk only: what a
    nested child walk did stays inside its [EvSubWalk] node. *)

Definition requests_of (t : list event) : list (string * string) :=
  omap (fun e => match e with EvHttp m u _ _ => Some (m, u) | _ => None end) t.

Definition signs_of (t : list event) : list string :=
  omap (fun e => match e with EvSign u _ => Some u | _ => None end) t.

Definition waits_of (t : list event) : list Z :=
  omap (fun e => match e with EvRetryWait w => Some w | _ => None end) t.

Definition delays_of (t : list event) : list Q :=
  omap (fun e => match e with EvSleep d => Some d | _ => None end) t.

(** The payload that [request] hands back for an exchange, if it does. *)
Definition payload_of (e : event) : option json :=
  match e with
  | EvHttp _ _ _ (HttpResponse r) =>
      match interpret false r with
      | inr v => Some v
      | inl _ => None
      end
  | _ => None
  end.

Definition payloads_of (t : list event) : list json := omap payload_of t.

Definition callbacks_of (t : list event) : list (list ZhihuComment * list ZhihuComment) :=
  omap (fun e => match e with EvCallback cs acc => Some (cs, acc) | _ => None end) t.

(** All calls of the sink, those of nested child walks included. *)
Fixpoint all_callbacks (e : event) : list (list ZhihuComment) :=
  match e with
  | EvCallback cs _ => [cs]
  | EvSubWalk t =>
      (fix go (l : list event) : list (list ZhihuComment) :=
         match l with
         | [] => []
         | e' :: l' => all_callbacks e' ++ go l'
         end) t
  | _ => []
  end.

Definition all_callbacks_of (t : list event) : list (list ZhihuComment) :=
  flat_map all_callbacks t.

(** Each call of the sink finds the accumulator holding exactly what the
    earlier calls delivered. *)
Fixpoint chained (acc : list ZhihuComment)
    (calls : list (list ZhihuComment * list ZhihuComment)) : Prop :=
  match calls with
  | [] => True
  | (cs, seen) :: rest => seen = acc /\ chained (acc ++ cs) rest
  end.

(** The start of a page fetch and the inter-page delay, in order. *)
Inductive mark : Type := Fetch | Delay.

Definition mark_of (e : event) : option mark :=
  match e with
  | EvSign _ _ => Some Fetch
  | EvSleep _ => Some Delay
  | _ => None
  end.

Definition skeleton (t : list event) : list mark := omap mark_of t.

Fixpoint alternates (next : mark) (l : list mark) : Prop :=
  match l with
  | [] => True
  | x :: l' =>
      match next, x with
      | Fetch, Fetch => alternates Delay l'
      | Delay, Delay => alternates Fetch l'
      | _, _ => False
      end
  end.

(** The claim that no delay follows the last page: every delay of the
    walk is followed by a later fetch. *)
Definition no_delay_after_last_fetch (t : list event) : Prop :=
  forall pre d post, t = pre ++ EvSleep d :: post -> In Fetch (skeleton post).

(** ** Reading a page payload *)

Definition paging_of (p : json) : json :=
  match py_get p "paging" (JDict []) with
  | inr x => x
  | inl _ => JNull
  end.

Definition is_end_of (p : json) : json :=
  match py_get (paging_of p) "is_end" JNull with
  | inr x => x
  | inl _ => JNull
  end.

Definition offset_of (p : json) : string := extract_offset (paging_of p).

Definition data_of (p : json) : json :=
  match py_get p "data" JNull with
  | inr x => x
  | inl _ => JNull
  end.

Definition comments_of (content : ZhihuContent) (p : json) : list ZhihuComment :=
  extract_comments content (data_of p).

Definition is_dict (v : json) : bool :=
  match v with
  | JDict _ => true
  | _ => false
  end.

(** A page that [request] returns and the walk reads without raising: a
    non-empty dict without a truthy [error], whose [paging] is a dict. *)
Definition well_formed_page (p : json) : bool :=
  is_dict p && py_truthy p
  && negb (match py_get p "error" JNull with inr e => py_truthy e | inl _ => true end)
  && is_dict (paging_of p).

(** A 200 response carrying the page [p]. *)
Definition serves (res : http_result) (p : json) : Prop :=
  exists r, res = HttpResponse r /\ status_code r = 200%Z /\ json_body r = Some p.

(** What the trace of one signed GET of [furi] from [st] is made of. *)
Definition get_event (st : state) (furi : string) (e : event) : Prop :=
  match e with
  | EvSign u _ => u = furi
  | EvHttp m u h _ =>
      m = "GET" /\ u = ZHIHU_URL +:+ furi /\ exists zst zse, h = signed st zst zse
  | EvRetryWait w => w = 1%Z
  | _ => False
  end.

(** The session can sign: [d_c0] is set, the default headers hold the
    cookie string, and the signer returns both signature headers. *)
Definition d_c0_set (st : state) : Prop :=
  exists v, cookie_dict st !! "d_c0" = Some v /\ v <> "".

Definition signer_ok (cookie : string) : Prop :=
  forall url, exists d zst zse,
    sign url cookie = inr d /\ d !! "x-zst-81" = Some zst /\ d !! "x-zse-96" = Some zse.

Definition can_sign (st : state) : Prop :=
  d_c0_set st /\
  exists cookie, (heap st !!! default_headers st) !! "cookie" = Some cookie
                 /\ signer_ok cookie.

Definition root_url (content : ZhihuContent) (offset : string) : string :=
  ZHIHU_URL +:+ root_comments_uri (content_id content) (content_type content)
    +:+ "?" +:+ urlencode (page_params offset 10 "sort").

Definition child_uri_with (root_comment_id offset : string) : string :=
  child_comments_uri root_comment_id +:+ "?" +:+ urlencode (page_params offset 10 "sort").

(** The offsets the walk asks for when it is served [pages] in turn. *)
Definition offsets_for (pages : list json) : list string :=
  "" :: map offset_of pages.

Definition sink_accepts (callback : option (list ZhihuComment -> option exn))
    (cs : list ZhihuComment) : Prop :=
  forall cb, callback = Some cb -> cb cs = None.

Definition no_replies (cs : list ZhihuComment) : Prop :=
  Forall (fun c => sub_comment_count c = 0%Z) cs.

Definition final_uri_of (uri : string) (params : option (list (string * pyatom)))
    : string :=
  match params with
  | Some ps => uri +:+ "?" +:+ urlencode ps
  | None => uri
  end.

(** ** Claims that the code does not meet, stated so as to be refuted *)

(** A 403 ends the request at once: one exchange, and the forbidden
    failure surfaces. *)
Definition forbidden_not_retried (m u : string) (hl : nat) (rr : bool) (st : state)
    : Prop :=
  forall r, net (sent st) = HttpResponse r -> status_code r = 403%Z ->
    exists st',
      request m u hl rr st
      = (Raise (ForbiddenError (text r)), st',
         [EvHttp m u (heap st !!! hl) (HttpResponse r)]).

(** A failure of the signer is retried, signing included: three signing
    calls, two waits, and then the signer's error. *)
Definition signing_failure_retried (uri : string)
    (params : option (list (string * pyatom))) (st : state) : Prop :=
  forall cookie e,
    (heap st !!! default_headers st) !! "cookie" = Some cookie ->
    sign (final_uri_of uri params) cookie = inl e ->
    exists st' t,
      get uri params st = (Raise e, st', t) /\
      length (signs_of t) = 3 /\ waits_of t = [1%Z; 1%Z].

(** The pure part of one turn of a walk: what it reads off a page. *)
Definition read_page (content : ZhihuContent) (p : json)
    : exn + (json * string * list ZhihuComment) :=
  match py_get p "paging" (JDict []) with
  | inl e => inl e
  | inr paging_info =>
      match py_get paging_info "is_end" JNull with
      | inl e => inl e
      | inr is_end =>
          match py_get p "data" JNull with
          | inl e => inl e
          | inr data =>
              inr (is_end, extract_offset paging_info, extract_comments content data)
          end
      end
  end.

(** The page made the walk go on: it was truthy and carried comments. *)
Definition delivers (content : ZhihuContent) (p : json) : Prop :=
  py_truthy p = true /\ comments_of content p <> [].

(** One turn of the root walk after the page [p] has been fetched, with
    the binds of [root_loop] spelled out. *)
Definition root_page (fuel : nat) (content : ZhihuContent) (ci : Q)
    (cb : option (list ZhihuComment -> option exn)) (result : list ZhihuComment)
    (p : json) : M (list ZhihuComment) :=
  fun st1 =>
    if py_truthy p then
      match read_page content p with
      | inl e => (Raise e, st1, [])
      | inr (ie, off, cs) =>
          match cs with
          | [] => (Return result, st1, [])
          | _ :: _ =>
              match call_callback cb cs result st1 with
              | (Return _, st2, tcb) =>
                  match get_comments_all_sub_comments fuel content cs ci cb st2 with
                  | (Return _, st3, ts) =>
                      let '(r, st', tr) :=
                        root_loop fuel content ci cb (result ++ cs) ie off st3 in
                      (r, st', tcb ++ EvSubWalk ts :: EvSleep ci :: tr)
                  | (Raise e, st3, ts) => (Raise e, st3, tcb ++ [EvSubWalk ts])
                  | (OutOfFuel, st3, ts) => (OutOfFuel, st3, tcb ++ [EvSubWalk ts])
                  end
              | (Raise e, st2, tcb) => (Raise e, st2, tcb)
              | (OutOfFuel, st2, tcb) => (OutOfFuel, st2, tcb)
              end
          end
      end
    else (Return result, st1, []).

(** The same for the walk under one parent comment. *)
Definition child_page (fuel : nat) (content : ZhihuContent) (parent : ZhihuComment)
    (ci : Q) (cb : option (list ZhihuComment -> option exn))
    (acc : list ZhihuComment) (p : json) : M (list ZhihuComment) :=
  fun st1 =>
    if py_truthy p then
      match read_page content p with
      | inl e => (Raise e, st1, [])
      | inr (ie, off, cs) =>
          match cs with
          | [] => (Return acc, st1, [])
          | _ :: _ =>
              match call_callback cb cs acc st1 with
              | (Return _, st2, tcb) =>
                  let '(r, st', tr) :=
                    child_loop fuel content parent ci cb (acc ++ cs) ie off st2 in
                  (r, st', tcb ++ EvSleep ci :: tr)
              | (Raise e, st2, tcb) => (Raise e, st2, tcb)
              | (OutOfFuel, st2, tcb) => (OutOfFuel, st2, tcb)
              end
          end
      end
    else (Return acc, st1, []).

(** The events that call out: signing and the HTTP exchange. *)
Definition is_call (e : event) : Prop :=
  match e with
  | EvSign _ _ | EvHttp _ _ _ _ => True
  | _ => False
  end.

(** A call to the child-comment endpoint of the parent [parent]. *)
Definition child_call (parent : ZhihuComment) (e : event) : Prop :=
  match e with
  | EvSign u _ => exists offset, u = child_uri_with (comment_id parent) offset
  | EvHttp m u _ _ =>
      m = "GET" /\
      exists offset, u = ZHIHU_URL +:+ child_uri_with (comment_id parent) offset
  | _ => False
  end.

(** What every run of a walk satisfies, whatever its outcome: [acc] and
    [is_end] are the accumulator and the flag it starts from. *)
Definition walk_inv (content : ZhihuContent) (ci : Q)
    (cb : option (list ZhihuComment -> option exn))
    (acc : list ZhihuComment) (is_end : json)
    (run : outcome (list ZhihuComment) * state * list event) : Prop :=
  let '(r, _, t) := run in
  Forall (fun cs => cs <> []) (all_callbacks_of t) /\
  chained acc (callbacks_of t) /\
  (cb = None -> callbacks_of t = []) /\
  (forall res, r = Return res -> is_Some cb ->
     res = acc ++ concat (map fst (callbacks_of t))) /\
  (forall res, r = Return res ->
     res = acc ++ concat (map (comments_of content) (filter (fun p => py_truthy p = true) (payloads_of t)))) /\
  alternates Fetch (skeleton t) /\
  Forall (fun d => d = ci) (delays_of t) /\
  (forall res, r = Return res -> py_truthy is_end = false ->
     exists p m, last (payloads_of t) = Some p /\ last (skeleton t) = Some m /\
                 (m = Delay <-> delivers content p)).

(** The part of [walk_inv] that is about the sink. *)
Definition sink_inv (cb : option (list ZhihuComment -> option exn))
    (acc : list ZhihuComment)
    (run : outcome (list ZhihuComment) * state * list event) : Prop :=
  let '(r, _, t) := run in
  Forall (fun cs => cs <> []) (all_callbacks_of t) /\
  chained acc (callbacks_of t) /\
  (cb = None -> callbacks_of t = []) /\
  (forall res, r = Return res -> is_Some cb ->
     res = acc ++ concat (map fst (callbacks_of t))).

Definition events_of {A} (run : outcome A * state * list event) : list event :=
  snd run.

Definition root_uri_with (content : ZhihuContent) (offset : string) : string :=
  root_comments_uri (content_id content) (content_type content)
    +:+ "?" +:+ urlencode (page_params offset 10 "sort").

(** A call to the root-comment endpoint of [content]. *)
Definition root_call (content : ZhihuContent) (e : event) : Prop :=
  match e with
  | EvSign u _ => exists offset, u = root_uri_with content offset
  | EvHttp m u _ _ => m = "GET" /\ exists offset, u = root_url content offset
  | _ => False
  end.

(** A call that the child walk over [comments] may make: child
    fetching is on, and the call is for a parent that has replies. *)
Definition allowed_child_call (comments : list ZhihuComment) (e : event) : Prop :=
  is_call e ->
  ENABLE_GET_SUB_COMMENTS = true /\
  exists parent, parent ∈ comments /\ sub_comment_count parent <> 0%Z
                 /\ child_call parent e.

(** What the root walk's own trace is made of: calls to the root
    endpoint, and nodes that hold the calls of the child walks. *)
Definition root_level (content : ZhihuContent) (e : event) : Prop :=
  match e with
  | EvSign _ _ | EvHttp _ _ _ _ => root_call content e
  | EvSubWalk ts =>
      exists comments, Forall (allowed_child_call comments) ts
  | _ => True
  end.

(** A valid page that is not the last one: well formed, [is_end] false,
    and with comments in it. *)
Definition valid_page (content : ZhihuContent) (p : json) : Prop :=
  well_formed_page p = true /\ py_truthy (is_end_of p) = false
  /\ comments_of content p <> [].

(** The last page: well formed and marked [is_end]. *)
Definition final_page (p : json) : Prop :=
  well_formed_page p = true /\ py_truthy (is_end_of p) = true.

(** The network answers the next exchanges with [pages], in turn. *)
Definition served_from (st : state) (pages : list json) : Prop :=
  forall i p, pages !! i = Some p -> serves (net (sent st + i)) p.

(** Nothing gets in the way of the root walk on [pages]: the sink accepts
    every page, and no child walk has anything to fetch. *)
Definition undisturbed (content : ZhihuContent)
    (cb : option (list ZhihuComment -> option exn)) (pages : list json) : Prop :=
  Forall (fun p => sink_accepts cb (comments_of content p)) pages /\
  (ENABLE_GET_SUB_COMMENTS = false
   \/ Forall (fun p => no_replies (comments_of content p)) pages).

(** The offsets asked for while [pages] are walked from [offset], and the
    loop variables after them. *)
Fixpoint asked (offset : string) (pages : list json) : list string :=
  match pages with
  | [] => []
  | p :: ps => offset :: asked (offset_of p) ps
  end.

Definition next_offset (offset : string) (pages : list json) : string :=
  foldl (fun _ p => offset_of p) offset pages.

Definition next_is_end (is_end : json) (pages : list json) : json :=
  foldl (fun _ p => is_end_of p) is_end pages.

Definition get_requests (content : ZhihuContent) (offsets : list string)
    : list (string * string) :=
  map (fun offset => ("GET", root_url content offset)) offsets.

(** ** Notions for the further properties *)

(** [v.get(k)] when [v] is known to be a dict; [None] otherwise. *)
Definition field (v : json) (k : string) : json :=
  match py_get v k JNull with
  | inr x => x
  | inl _ => JNull
  end.


Definition outcome_of {A} (run : outcome A * state * list event) : outcome A :=
  fst (fst run).


(** What the child walk is to meet: for each parent comment, in order,
    the valid pages of replies and the last page that the server holds for
    it.  A parent without replies is not asked about, so its entry stands
    for no exchange. *)
Definition has_replies (parent : ZhihuComment) : bool :=
  negb (sub_comment_count parent =? 0)%Z.

Definition entry_pages (entry : ZhihuComment * list json * json) : list json :=
  let '(parent, pages, final) := entry in
  if has_replies parent then pages ++ [final] else [].

Definition plan_script (plan : list (ZhihuComment * list json * json)) : list json :=
  flat_map entry_pages plan.

Definition child_url (parent : ZhihuComment) (offset : string) : string :=
  ZHIHU_URL +:+ child_uri_with (comment_id parent) offset.

Definition entry_requests (entry : ZhihuComment * list json * json)
    : list (string * string) :=
  let '(parent, pages, final) := entry in
  if has_replies parent
  then map (fun offset => ("GET", child_url parent offset)) (offsets_for pages)
  else [].

Definition plan_requests (plan : list (ZhihuComment * list json * json))
    : list (string * string) :=
  flat_map entry_requests plan.

Definition entry_ok (content : ZhihuContent)
    (cb : option (list ZhihuComment -> option exn)) (fuel : nat)
    (entry : ZhihuComment * list json * json) : Prop :=
  let '(parent, pages, final) := entry in
  has_replies parent = true ->
  Forall (valid_page content) pages /\ final_page final /\
  Forall (fun p => sink_accepts cb (comments_of content p)) (pages ++ [final]) /\
  length pages < fuel.

(** The number of times the byte [c] occurs in [s]. *)
Fixpoint count_char (c : ascii) (s : string) : nat :=
  match s with
  | "" => 0
  | String a s' => (if Ascii.eqb a c then 1 else 0) + count_char c s'
  end.



(** A round of the whole walk: a root page, and what the child walk is to
    meet for the comments of that page. *)
Definition round_script (round : json * list (ZhihuComment * list json * json))
    : list json :=
  fst round :: plan_script (snd round).

Definition tree_script (rounds : list (json * list (ZhihuComment * list json * json)))
    : list json :=
  flat_map round_script rounds.

Definition round_ok (content : ZhihuContent)
    (cb : option (list ZhihuComment -> option exn)) (sub_fuel : nat) (last : bool)
    (round : json * list (ZhihuComment * list json * json)) : Prop :=
  let '(p, plan) := round in
  well_formed_page p = true /\
  py_truthy (is_end_of p) = last /\
  comments_of content p <> [] /\
  map (fun entry => fst (fst entry)) plan = comments_of content p /\
  sink_accepts cb (comments_of content p) /\
  Forall (entry_ok content cb sub_fuel) plan.

(** ** The monad *)

Lemma bind_Return {A B} (m : M A) (k : A -> M B) st a st1 t1 :
  m st = (Return a, st1, t1) ->
  bind m k st = (let '(r, st2, t2) := k a st1 in (r, st2, t1 ++ t2)).
Proof. intros H. unfold bind. rewrite H. reflexivity. Qed.

Lemma bind_Raise {A B} (m : M A) (k : A -> M B) st e st1 t1 :
  m st = (Raise e, st1, t1) -> bind m k st = (Raise e, st1, t1).
Proof. intros H. unfold bind. rewrite H. reflexivity. Qed.

Lemma bind_OutOfFuel {A B} (m : M A) (k : A -> M B) st st1 t1 :
  m st = (OutOfFuel, st1, t1) -> bind m k st = (OutOfFuel, st1, t1).
Proof. intros H. unfold bind. rewrite H. reflexivity. Qed.

Lemma lookup_total_dict_lt (h : list (gmap string string)) (l : nat) k v :
  (h !!! l) !! k = Some v -> l < length h.
Proof.
  intros H. destruct (decide (l < length h)) as [|Hge]; [done|].
  rewrite list_lookup_total_alt in H.
  rewrite lookup_ge_None_2 in H by lia. simpl in H.
  rewrite lookup_empty in H. discriminate.
Qed.

Lemma setitem_fresh (h : list (gmap string string)) d k v :
  <[length h := <[k := v]> ((h ++ [d]) !!! length h)]> (h ++ [d]) = h ++ [<[k := v]> d].
Proof.
  rewrite list_lookup_total_middle by done.
  rewrite insert_app_r_alt by lia.
  replace (length h - length h) with 0 by lia. done.
Qed.

(** ** Signing: [_pre_headers] *)

Lemma pre_headers_no_d_c0 url st :
  cookie_dict st !! "d_c0" = None ->
  _pre_headers url st = (Raise (Exception "d_c0 not found in cookies"), st, []).
Proof. intros H. unfold _pre_headers. rewrite H. reflexivity. Qed.

Lemma pre_headers_sign_fails url st cookie e :
  d_c0_set st ->
  (heap st !!! default_headers st) !! "cookie" = Some cookie ->
  sign url cookie = inl e ->
  _pre_headers url st = (Raise e, st, [EvSign url cookie]).
Proof.
  intros (v & Hv & Hne) Hc Hs. unfold _pre_headers. rewrite Hv.
  destruct v as [|a v]; [done|].
  unfold bind, dict_getitem, call_sign. rewrite Hc, Hs. reflexivity.
Qed.

Lemma pre_headers_ok url st cookie d zst zse :
  d_c0_set st ->
  (heap st !!! default_headers st) !! "cookie" = Some cookie ->
  sign url cookie = inr d ->
  d !! "x-zst-81" = Some zst -> d !! "x-zse-96" = Some zse ->
  _pre_headers url st
  = (Return (length (heap st)), with_headers (signed st zst zse) st, [EvSign url cookie]).
Proof.
  intros (v & Hv & Hne) Hc Hs Hzst Hzse. unfold _pre_headers. rewrite Hv.
  destruct v as [|a v]; [done|].
  unfold bind, dict_getitem, call_sign, dict_copy, sign_getitem, dict_setitem.
  rewrite Hc, Hs, Hzst, Hzse. simpl.
  rewrite setitem_fresh. simpl. rewrite setitem_fresh. reflexivity.
Qed.

(** Whatever [_pre_headers] does, it only allocates: the dicts already on
    the heap, the defaults among them, are as they were.  Either it
    raises, before any exchange, or it returns a fresh copy of the
    defaults with the two signature headers set. *)
Lemma pre_headers_cases url st :
  (exists e st' t,
      _pre_headers url st = (Raise e, st', t) /\
      default_headers st' = default_headers st /\
      cookie_dict st' = cookie_dict st /\
      sent st' = sent st /\
      (exists new, heap st' = heap st ++ new) /\
      heap st' !!! default_headers st = heap st !!! default_headers st /\
      (t = [] \/ exists cookie, t = [EvSign url cookie])) \/
  (exists cookie zst zse,
      default_headers st < length (heap st) /\
      _pre_headers url st
      = (Return (length (heap st)), with_headers (signed st zst zse) st,
         [EvSign url cookie])).
Proof.
  destruct (cookie_dict st !! "d_c0") as [[|a v]|] eqn:Hv;
    [left | | left].
  1,3: unfold _pre_headers; rewrite Hv; eexists _, _, _; split_and!;
    [reflexivity | done | done | done | by exists []; rewrite app_nil_r
    | done | by left].
  assert (d_c0_set st) as Hd by (by eexists; split).
  destruct ((heap st !!! default_headers st) !! "cookie") as [cookie|] eqn:Hc.
  2:{ left. unfold _pre_headers, bind, dict_getitem. rewrite Hv, Hc.
      eexists _, _, _; split_and!;
        [reflexivity | done | done | done | by exists []; rewrite app_nil_r
        | done | by left]. }
  pose proof (lookup_total_dict_lt _ _ _ _ Hc) as Hlt.
  destruct (sign url cookie) as [e|d] eqn:Hs.
  { left. rewrite (pre_headers_sign_fails _ _ _ _ Hd Hc Hs).
    eexists _, _, _; split_and!;
      [reflexivity | done | done | done | by exists []; rewrite app_nil_r
      | done | right; by eexists]. }
  destruct (d !! "x-zst-81") as [zst|] eqn:Hzst.
  2:{ left. unfold _pre_headers, bind, dict_getitem, call_sign, dict_copy, sign_getitem.
      rewrite Hv, Hc, Hs, Hzst. simpl.
      eexists _, _, _; split_and!;
        [reflexivity | done | done | done | simpl; eexists; reflexivity
        | simpl; by rewrite lookup_total_app_l | right; by eexists]. }
  destruct (d !! "x-zse-96") as [zse|] eqn:Hzse.
  2:{ left.
      unfold _pre_headers, bind, dict_getitem, call_sign, dict_copy, sign_getitem,
        dict_setitem.
      rewrite Hv, Hc, Hs, Hzst, Hzse. simpl. rewrite setitem_fresh.
      eexists _, _, _; split_and!;
        [reflexivity | done | done | done | simpl; eexists; reflexivity
        | simpl; by rewrite lookup_total_app_l | right; by eexists]. }
  right. exists cookie, zst, zse. split; [done|].
  by apply (pre_headers_ok _ _ _ d).
Qed.

(** ** The transport: [request] *)

Lemma retrying_unfold {A} more w (attempt : M A) st :
  retrying more w attempt st
  = match attempt st with
    | (Raise e, st1, t1) =>
        match more with
        | O => (Raise (RetryError e), st1, t1)
        | S more' =>
            let '(r, st2, t2) := retrying more' w attempt st1 in
            (r, st2, t1 ++ EvRetryWait w :: t2)
        end
    | other => other
    end.
Proof. destruct more; reflexivity. Qed.

Lemma request_attempt_eq m u hl rr st :
  request_attempt m u hl rr st
  = (attempt_outcome rr (net (sent st)), incr_sent st,
     [EvHttp m u (heap st !!! hl) (net (sent st))]).
Proof. reflexivity. Qed.

Lemma attempt_outcome_fuel rr res : attempt_outcome rr res <> OutOfFuel.
Proof.
  unfold attempt_outcome. destruct res as [e|r]; [done|].
  by destruct (interpret rr r).
Qed.

Lemma payload_of_attempt m u h res :
  omap payload_of [EvHttp m u h res]
  = match attempt_outcome false res with Return v => [v] | _ => [] end.
Proof.
  unfold attempt_outcome. destruct res as [e|r]; simpl; [done|].
  by destruct (interpret false r).
Qed.

(** What every run of the retried request satisfies: the heap and the
    session are untouched, every exchange carries the same headers, and
    the payload it returns is the one of its last exchange. *)
Lemma retrying_frame more m u hl rr st :
  let '(r, st', t) := retrying more 1 (request_attempt m u hl rr) st in
  heap st' = heap st /\
  default_headers st' = default_headers st /\
  cookie_dict st' = cookie_dict st /\
  sent st < sent st' /\
  Forall (fun e => (exists res, e = EvHttp m u (heap st !!! hl) res) \/ e = EvRetryWait 1) t /\
  r <> OutOfFuel /\
  (rr = false -> payloads_of t = match r with Return v => [v] | _ => [] end).
Proof.
  revert st. induction more as [|more IH]; intros st;
    rewrite retrying_unfold, request_attempt_eq;
    pose proof (attempt_outcome_fuel rr (net (sent st))) as Hf;
    pose proof (payload_of_attempt m u (heap st !!! hl) (net (sent st))) as Hp;
    destruct (attempt_outcome rr (net (sent st))) as [v|e|] eqn:Ho; try done;
    try (split_and!; [done | done | done | simpl; lia | | done |];
         [apply Forall_cons; split; [eauto | constructor]
         |intros ->; unfold payloads_of; rewrite Hp, Ho; done]).
  specialize (IH (incr_sent st)).
  destruct (retrying more 1 (request_attempt m u hl rr) (incr_sent st))
    as [[r st2] t2].
  destruct IH as (Hh & Hd & Hc & Hs & Hall & Hfuel & Hpay).
  split_and!; try done; [simpl in Hs; lia | |].
  - apply Forall_cons; split; [eauto|]. apply Forall_cons; split; [eauto|]. done.
  - intros ->. unfold payloads_of in *.
    change (EvHttp m u (heap st !!! hl) (net (sent st)) :: EvRetryWait 1 :: t2)
      with ([EvHttp m u (heap st !!! hl) (net (sent st))] ++ EvRetryWait 1 :: t2).
    rewrite omap_app, Hp, Ho. simpl. by apply Hpay.
Qed.

Lemma request_first_returns m u hl rr st r v :
  net (sent st) = HttpResponse r ->
  interpret rr r = inr v ->
  request m u hl rr st
  = (Return v, incr_sent st, [EvHttp m u (heap st !!! hl) (HttpResponse r)]).
Proof.
  intros Hn Hi. unfold request. rewrite retrying_unfold, request_attempt_eq.
  rewrite Hn. simpl. rewrite Hi. reflexivity.
Qed.

Lemma request_first_raises m u hl rr st res e :
  net (sent st) = res ->
  attempt_outcome rr res = Raise e ->
  request m u hl rr st
  = (let '(r, st2, t2) :=
       retrying 1 1 (request_attempt m u hl rr) (incr_sent st) in
     (r, st2, EvHttp m u (heap st !!! hl) res :: EvRetryWait 1 :: t2)).
Proof.
  intros Hn Ho. unfold request. rewrite retrying_unfold, request_attempt_eq.
  rewrite Hn, Ho. reflexivity.
Qed.

Lemma transport_events_quiet m u h w t :
  Forall (fun e => (exists res, e = EvHttp m u h res) \/ e = EvRetryWait w) t ->
  skeleton t = [] /\ callbacks_of t = [] /\ all_callbacks_of t = [] /\ signs_of t = []
  /\ requests_of t = map (fun _ => (m, u)) (requests_of t).
Proof.
  induction 1 as [|e t He _ (IH1 & IH2 & IH3 & IH4 & IH5)]; [done|].
  destruct He as [[res ->] | ->]; simpl; split_and!; try done.
  unfold requests_of in *. simpl. by f_equal.
Qed.

(** ** The signed GET: [get] *)

Lemma get_eq uri params :
  get uri params
  = bind (_pre_headers (final_uri_of uri params))
      (fun headers =>
         request "GET" (ZHIHU_URL +:+ final_uri_of uri params) headers false).
Proof. reflexivity. Qed.

Lemma get_cases uri params st :
  (exists e st' t,
      get uri params st = (Raise e, st', t) /\
      default_headers st' = default_headers st /\
      cookie_dict st' = cookie_dict st /\
      sent st' = sent st /\
      (exists new, heap st' = heap st ++ new) /\
      heap st' !!! default_headers st = heap st !!! default_headers st /\
      (t = [] \/ exists cookie, t = [EvSign (final_uri_of uri params) cookie])) \/
  (exists cookie zst zse r st' t2,
      default_headers st < length (heap st) /\
      request "GET" (ZHIHU_URL +:+ final_uri_of uri params) (length (heap st)) false
        (with_headers (signed st zst zse) st) = (r, st', t2) /\
      get uri params st = (r, st', EvSign (final_uri_of uri params) cookie :: t2)).
Proof.
  rewrite get_eq.
  destruct (pre_headers_cases (final_uri_of uri params) st)
    as [(e & st' & t & Hrun & ?) | (cookie & zst & zse & Hlt & Hrun)].
  - left. exists e, st', t. split; [|done]. by apply bind_Raise.
  - right.
    destruct (request "GET" (ZHIHU_URL +:+ final_uri_of uri params) (length (heap st))
                false (with_headers (signed st zst zse) st)) as [[r st'] t2] eqn:Hreq.
    exists cookie, zst, zse, r, st', t2. split_and!; [done | done |].
    rewrite (bind_Return _ _ _ _ _ _ Hrun), Hreq. reflexivity.
Qed.

(** What every run of [get] satisfies. *)
Lemma get_frame uri params st :
  let '(r, st', t) := get uri params st in
  default_headers st' = default_headers st /\
  cookie_dict st' = cookie_dict st /\
  (exists new, heap st' = heap st ++ new) /\
  heap st' !!! default_headers st = heap st !!! default_headers st /\
  sent st <= sent st' /\
  r <> OutOfFuel /\
  payloads_of t = match r with Return v => [v] | _ => [] end /\
  callbacks_of t = [] /\ all_callbacks_of t = [] /\
  (skeleton t = [Fetch] \/ (skeleton t = [] /\ exists e, r = Raise e)) /\
  Forall (get_event st (final_uri_of uri params)) t /\
  (signs_of t = [final_uri_of uri params] \/ (signs_of t = [] /\ exists e, r = Raise e)).
Proof.
  destruct (get_cases uri params st)
    as [(e & st' & t & -> & Hd & Hc & Hs & Hnew & Hh & Ht)
       | (cookie & zst & zse & r & st' & t2 & Hlt & Hreq & ->)].
  - split_and!; try done; try lia; destruct Ht as [-> | [cookie ->]]; try done.
    + right. eauto.
    + by left.
    + by apply Forall_cons.
    + right. eauto.
    + by left.
  - pose proof (retrying_frame (stop_after_attempt 3) "GET"
                  (ZHIHU_URL +:+ final_uri_of uri params) (length (heap st)) false
                  (with_headers (signed st zst zse) st)) as Hf.
    unfold request in Hreq. rewrite Hreq in Hf.
    destruct Hf as (Hh & Hd & Hc & Hs & Hall & Hfuel & Hpay).
    simpl in Hh, Hd, Hc, Hs.
    unfold with_headers, set_heap in Hall. cbn [heap] in Hall.
    rewrite list_lookup_total_middle in Hall by done.
    destruct (transport_events_quiet _ _ _ _ _ Hall) as (Hsk & Hcb & Hacb & Hsg & _).
    split_and!; try done.
    + rewrite Hh. by eexists.
    + rewrite Hh. by rewrite lookup_total_app_l.
    + lia.
    + unfold payloads_of in *. simpl. by apply Hpay.
    + left. change (skeleton (EvSign (final_uri_of uri params) cookie :: t2))
        with (Fetch :: skeleton t2). by rewrite Hsk.
    + apply Forall_cons; split; [done|].
      eapply Forall_impl; [exact Hall|]. intros e [[res ->] | ->]; simpl; eauto.
    + left. change (signs_of (EvSign (final_uri_of uri params) cookie :: t2))
        with (final_uri_of uri params :: signs_of t2). by rewrite Hsg.
Qed.

(** ** One turn of each loop *)

Lemma root_loop_end fuel content ci cb result is_end offset :
  py_truthy is_end = true ->
  root_loop fuel content ci cb result is_end offset = ret result.
Proof. intros H. destruct fuel; simpl; by rewrite H. Qed.

Lemma root_loop_O content ci cb result is_end offset :
  py_truthy is_end = false ->
  root_loop 0 content ci cb result is_end offset = out_of_fuel.
Proof. intros H. simpl. by rewrite H. Qed.

Lemma root_loop_S fuel content ci cb result is_end offset :
  py_truthy is_end = false ->
  root_loop (S fuel) content ci cb result is_end offset
  = (do root_comment_res <- get_root_comments (content_id content) (content_type content)
                              offset 10 "sort" ;
     if negb (py_truthy root_comment_res) then ret result
     else
       do paging_info <- lift (py_get root_comment_res "paging" (JDict [])) ;
       do is_end' <- lift (py_get paging_info "is_end" JNull) ;
       do data <- lift (py_get root_comment_res "data" JNull) ;
       match extract_comments content data with
       | [] => ret result
       | _ :: _ =>
           do _ <- call_callback cb (extract_comments content data) result ;
           do _ <- in_sub_walk (get_comments_all_sub_comments fuel content
                                  (extract_comments content data) ci cb) ;
           do _ <- sleep ci ;
           root_loop fuel content ci cb (result ++ extract_comments content data)
             is_end' (extract_offset paging_info)
       end).
Proof. intros H. simpl. by rewrite H. Qed.

Lemma child_loop_end fuel content parent ci cb acc is_end offset :
  py_truthy is_end = true ->
  child_loop fuel content parent ci cb acc is_end offset = ret acc.
Proof. intros H. destruct fuel; simpl; by rewrite H. Qed.

Lemma child_loop_O content parent ci cb acc is_end offset :
  py_truthy is_end = false ->
  child_loop 0 content parent ci cb acc is_end offset = out_of_fuel.
Proof. intros H. simpl. by rewrite H. Qed.

Lemma child_loop_S fuel content parent ci cb acc is_end offset :
  py_truthy is_end = false ->
  child_loop (S fuel) content parent ci cb acc is_end offset
  = (do child_comment_res <- get_child_comments (comment_id parent) offset 10 "sort" ;
     if negb (py_truthy child_comment_res) then ret acc
     else
       do paging_info <- lift (py_get child_comment_res "paging" (JDict [])) ;
       do is_end' <- lift (py_get paging_info "is_end" JNull) ;
       do data <- lift (py_get child_comment_res "data" JNull) ;
       match extract_comments content data with
       | [] => ret acc
       | _ :: _ =>
           do _ <- call_callback cb (extract_comments content data) acc ;
           do _ <- sleep ci ;
           child_loop fuel content parent ci cb (acc ++ extract_comments content data)
             is_end' (extract_offset paging_info)
       end).
Proof. intros H. simpl. by rewrite H. Qed.

(** ** C7: a session without [d_c0] *)

(** C7.  When the cookie set has no [d_c0], a signed GET raises at once:
    the trace is empty (no signing, no exchange with the network, no
    retry wait) and the state is untouched.  The page fetches and the
    root walk, which go through [get], raise the same error as soon as
    they are started. *)
Theorem missing_d_c0_fails_fast uri params st :
  cookie_dict st !! "d_c0" = None ->
  get uri params st = (Raise (Exception "d_c0 not found in cookies"), st, []) /\
  (forall id offset,
      get_child_comments id offset 10 "sort" st
      = (Raise (Exception "d_c0 not found in cookies"), st, [])) /\
  (forall fuel content crawl_interval callback,
      get_note_all_comments (S fuel) content crawl_interval callback st
      = (Raise (Exception "d_c0 not found in cookies"), st, [])).
Proof.
  intros H.
  assert (forall uri params,
            get uri params st
            = (Raise (Exception "d_c0 not found in cookies"), st, [])) as Hget.
  { intros uri' params'. rewrite get_eq.
    apply bind_Raise. by apply pre_headers_no_d_c0. }
  split_and!; [apply Hget | intros; apply Hget |].
  intros fuel content ci cb. unfold get_note_all_comments.
  rewrite root_loop_S by done. apply bind_Raise. apply Hget.
Qed.

(** ** C8: the default headers are not touched *)

(** C8.  Whatever a signed GET does, the dict that [self.default_headers]
    refers to is afterwards what it was before, as is every other dict
    that was on the heap: the call only allocates.  The headers of every
    exchange it makes are the defaults with the two signature headers
    set, so these went into the copy. *)
Theorem get_leaves_default_headers uri params st :
  let '(r, st', t) := get uri params st in
  default_headers st' = default_headers st /\
  heap st' !!! default_headers st' = heap st !!! default_headers st /\
  (exists new, heap st' = heap st ++ new) /\
  Forall (fun e => forall m u h res, e = EvHttp m u h res ->
            exists zst zse,
              h = <["x-zse-96" := zse]>
                    (<["x-zst-81" := zst]> (heap st !!! default_headers st))) t.
Proof.
  pose proof (get_frame uri params st) as Hf.
  destruct (get uri params st) as [[r st'] t].
  destruct Hf as (Hd & _ & Hnew & Hh & _ & _ & _ & _ & _ & _ & Hall & _).
  split_and!; [done | by rewrite Hd | done |].
  eapply Forall_impl; [exact Hall|].
  intros e He m u h res ->. by destruct He as (_ & _ & ?).
Qed.

(** ** C3: a failing signer *)

Lemma get_sign_fails uri params st cookie e :
  d_c0_set st ->
  (heap st !!! default_headers st) !! "cookie" = Some cookie ->
  sign (final_uri_of uri params) cookie = inl e ->
  get uri params st = (Raise e, st, [EvSign (final_uri_of uri params) cookie]).
Proof.
  intros Hd Hc Hs. rewrite get_eq. apply bind_Raise.
  by apply pre_headers_sign_fails.
Qed.

(** C3, as the code has it.  When the signer raises, the request is given
    up before anything is sent: the signer is called once, its error
    reaches the caller as it is, there is no retry and no wait, and the
    state is untouched. *)
Theorem signing_failure_surfaces_at_once uri params st cookie e :
  d_c0_set st ->
  (heap st !!! default_headers st) !! "cookie" = Some cookie ->
  sign (final_uri_of uri params) cookie = inl e ->
  get uri params st = (Raise e, st, [EvSign (final_uri_of uri params) cookie]).
Proof. apply get_sign_fails. Qed.

(** ** C2 and C5: how [request] reads a status *)

Lemma interpret_403 rr r :
  status_code r = 403%Z -> interpret rr r = inl (ForbiddenError (text r)).
Proof. intros H. unfold interpret. rewrite H. reflexivity. Qed.

Lemma interpret_404 rr r :
  status_code r = 404%Z -> interpret rr r = inr (JDict []).
Proof. intros H. unfold interpret. rewrite H. reflexivity. Qed.

(** C2, as the code has it.  An attempt that receives a 403 raises
    [ForbiddenError] with the body of the response, which is not a
    [DataFetchError].  The retry wrapper treats it like any other
    exception: it waits one second and makes the next attempt.  After
    three 403 responses in a row it gives up with [RetryError] around the
    last [ForbiddenError]. *)
Theorem forbidden_raised_then_retried m u hl rr st r :
  net (sent st) = HttpResponse r ->
  status_code r = 403%Z ->
  request_attempt m u hl rr st
  = (Raise (ForbiddenError (text r)), incr_sent st,
     [EvHttp m u (heap st !!! hl) (HttpResponse r)]) /\
  (forall b, ForbiddenError (text r) <> DataFetchError b) /\
  request m u hl rr st
  = (let '(r', st', t') :=
       retrying 1 1 (request_attempt m u hl rr) (incr_sent st) in
     (r', st', EvHttp m u (heap st !!! hl) (HttpResponse r) :: EvRetryWait 1 :: t')) /\
  (forall r2 r3,
      net (S (sent st)) = HttpResponse r2 -> status_code r2 = 403%Z ->
      net (S (S (sent st))) = HttpResponse r3 -> status_code r3 = 403%Z ->
      request m u hl rr st
      = (Raise (RetryError (ForbiddenError (text r3))),
         incr_sent (incr_sent (incr_sent st)),
         [EvHttp m u (heap st !!! hl) (HttpResponse r); EvRetryWait 1;
          EvHttp m u (heap st !!! hl) (HttpResponse r2); EvRetryWait 1;
          EvHttp m u (heap st !!! hl) (HttpResponse r3)])).
Proof.
  intros Hn Hs.
  assert (attempt_outcome rr (HttpResponse r) = Raise (ForbiddenError (text r))) as Ho.
  { simpl. by rewrite interpret_403. }
  split_and!.
  - rewrite request_attempt_eq, Hn, Ho. reflexivity.
  - intros b; discriminate.
  - by apply (request_first_raises _ _ _ _ _ _ _ Hn Ho).
  - intros r2 r3 Hn2 Hs2 Hn3 Hs3.
    rewrite (request_first_raises _ _ _ _ _ _ _ Hn Ho).
    rewrite !retrying_unfold, !request_attempt_eq. simpl.
    rewrite Hn2. simpl. rewrite (interpret_403 _ _ Hs2).
    rewrite Hn3. simpl. rewrite (interpret_403 _ _ Hs3).
    reflexivity.
Qed.

(** ** One turn of a walk, spelled out *)

Lemma read_page_inr content p ie off cs :
  read_page content p = inr (ie, off, cs) ->
  ie = is_end_of p /\ off = offset_of p /\ cs = comments_of content p.
Proof.
  unfold read_page, is_end_of, offset_of, comments_of, paging_of, data_of.
  destruct (py_get p "paging" (JDict [])) as [e|pg]; [done|].
  destruct (py_get pg "is_end" JNull) as [e|ie']; [done|].
  destruct (py_get p "data" JNull) as [e|d]; [done|].
  by intros [= <- <- <-].
Qed.

Lemma call_callback_cases cb cs acc st :
  (call_callback cb cs acc st = (Return tt, st, []) /\ cb = None) \/
  (exists f, cb = Some f /\
     ((f cs = None /\ call_callback cb cs acc st = (Return tt, st, [EvCallback cs acc])) \/
      (exists e, f cs = Some e
                 /\ call_callback cb cs acc st = (Raise e, st, [EvCallback cs acc])))).
Proof.
  destruct cb as [f|]; [right | by left].
  exists f. split; [done|]. simpl.
  destruct (f cs) as [e|]; [right; by exists e | by left].
Qed.

Lemma bind_ret {A B} (a : A) (k : A -> M B) st : bind (ret a) k st = k a st.
Proof. unfold bind, ret. by destruct (k a st) as [[r st2] t2]. Qed.

Lemma bind_raise {A B} e (k : A -> M B) st :
  bind (raise e) k st = (Raise e, st, []).
Proof. reflexivity. Qed.

Lemma bind_eq {A B} (m : M A) (k : A -> M B) st :
  bind m k st
  = match m st with
    | (Return a, st1, t1) => let '(r, st2, t2) := k a st1 in (r, st2, t1 ++ t2)
    | (Raise e, st1, t1) => (Raise e, st1, t1)
    | (OutOfFuel, st1, t1) => (OutOfFuel, st1, t1)
    end.
Proof. reflexivity. Qed.

Lemma root_loop_turn fuel content ci cb result is_end offset st :
  py_truthy is_end = false ->
  root_loop (S fuel) content ci cb result is_end offset st
  = bind (get_root_comments (content_id content) (content_type content) offset 10 "sort")
      (root_page fuel content ci cb result) st.
Proof.
  intros H. rewrite root_loop_S by done. rewrite !(bind_eq (get_root_comments _ _ _ _ _)).
  destruct (get_root_comments _ _ _ _ _ st) as [[[p|e|] st1] tg]; [|done..].
  assert (forall X Y : outcome (list ZhihuComment) * state * list event,
            X = Y ->
            (let '(r, st2, t2) := X in (r, st2, tg ++ t2))
            = (let '(r, st2, t2) := Y in (r, st2, tg ++ t2))) as Hcong
      by (by intros ? ? ->).
  apply Hcong. clear Hcong. unfold root_page, read_page.
  destruct (py_truthy p); simpl; [|done].
  destruct (py_get p "paging" (JDict [])) as [e|pg]; simpl; [done|].
  rewrite bind_ret.
  destruct (py_get pg "is_end" JNull) as [e|ie]; simpl; [done|].
  rewrite bind_ret.
  destruct (py_get p "data" JNull) as [e|d]; simpl; [done|].
  rewrite bind_ret.
  destruct (extract_comments content d) as [|c cs] eqn:Hcs; [done|].
  rewrite bind_eq.
  destruct (call_callback cb (c :: cs) result st1) as [[[[]|e|] st2] tcb];
    [| done | done].
  rewrite bind_eq. unfold in_sub_walk.
  destruct (get_comments_all_sub_comments fuel content (c :: cs) ci cb st2)
    as [[[subs|e|] st3] ts]; [| done | done].
  rewrite bind_eq. unfold sleep, emit.
  by destruct (root_loop fuel content ci cb (result ++ c :: cs) ie (extract_offset pg) st3)
    as [[r st'] tr].
Qed.

Lemma child_loop_turn fuel content parent ci cb acc is_end offset st :
  py_truthy is_end = false ->
  child_loop (S fuel) content parent ci cb acc is_end offset st
  = bind (get_child_comments (comment_id parent) offset 10 "sort")
      (child_page fuel content parent ci cb acc) st.
Proof.
  intros H. rewrite child_loop_S by done. rewrite !(bind_eq (get_child_comments _ _ _ _)).
  destruct (get_child_comments _ _ _ _ st) as [[[p|e|] st1] tg]; [|done..].
  assert (forall X Y : outcome (list ZhihuComment) * state * list event,
            X = Y ->
            (let '(r, st2, t2) := X in (r, st2, tg ++ t2))
            = (let '(r, st2, t2) := Y in (r, st2, tg ++ t2))) as Hcong
      by (by intros ? ? ->).
  apply Hcong. clear Hcong. unfold child_page, read_page.
  destruct (py_truthy p); simpl; [|done].
  destruct (py_get p "paging" (JDict [])) as [e|pg]; simpl; [done|].
  rewrite bind_ret.
  destruct (py_get pg "is_end" JNull) as [e|ie]; simpl; [done|].
  rewrite bind_ret.
  destruct (py_get p "data" JNull) as [e|d]; simpl; [done|].
  rewrite bind_ret.
  destruct (extract_comments content d) as [|c cs] eqn:Hcs; [done|].
  rewrite bind_eq.
  destruct (call_callback cb (c :: cs) acc st1) as [[[[]|e|] st2] tcb];
    [| done | done].
  rewrite bind_eq. unfold sleep, emit.
  by destruct (child_loop fuel content parent ci cb (acc ++ c :: cs) ie (extract_offset pg) st2)
    as [[r st'] tr].
Qed.

(** ** Projections of a trace, piece by piece *)

Lemma requests_of_app t1 t2 : requests_of (t1 ++ t2) = requests_of t1 ++ requests_of t2.
Proof. apply omap_app. Qed.
Lemma payloads_of_app t1 t2 : payloads_of (t1 ++ t2) = payloads_of t1 ++ payloads_of t2.
Proof. apply omap_app. Qed.
Lemma callbacks_of_app t1 t2 : callbacks_of (t1 ++ t2) = callbacks_of t1 ++ callbacks_of t2.
Proof. apply omap_app. Qed.
Lemma skeleton_app t1 t2 : skeleton (t1 ++ t2) = skeleton t1 ++ skeleton t2.
Proof. apply omap_app. Qed.
Lemma delays_of_app t1 t2 : delays_of (t1 ++ t2) = delays_of t1 ++ delays_of t2.
Proof. apply omap_app. Qed.

Lemma get_events_quiet st furi t :
  Forall (get_event st furi) t -> delays_of t = [].
Proof.
  induction 1 as [|e t He _ IH]; [done|].
  destruct e; try done; simpl in *; done.
Qed.
Lemma all_callbacks_of_app t1 t2 :
  all_callbacks_of (t1 ++ t2) = all_callbacks_of t1 ++ all_callbacks_of t2.
Proof. apply flat_map_app. Qed.

Lemma all_callbacks_sub t : all_callbacks (EvSubWalk t) = all_callbacks_of t.
Proof. induction t as [|e t IH]; [done|]. simpl in *. by rewrite IH. Qed.

Lemma requests_of_cons e t :
  requests_of (e :: t)
  = match e with EvHttp m u _ _ => (m, u) :: requests_of t | _ => requests_of t end.
Proof. by destruct e. Qed.
Lemma payloads_of_cons e t :
  payloads_of (e :: t)
  = match payload_of e with Some p => p :: payloads_of t | None => payloads_of t end.
Proof. reflexivity. Qed.
Lemma callbacks_of_cons e t :
  callbacks_of (e :: t)
  = match e with EvCallback cs acc => (cs, acc) :: callbacks_of t | _ => callbacks_of t end.
Proof. by destruct e. Qed.
Lemma skeleton_cons e t :
  skeleton (e :: t)
  = match mark_of e with Some m => m :: skeleton t | None => skeleton t end.
Proof. reflexivity. Qed.
Lemma all_callbacks_of_cons e t :
  all_callbacks_of (e :: t) = all_callbacks e ++ all_callbacks_of t.
Proof. reflexivity. Qed.

(** ** What every run of a walk satisfies *)

Lemma walk_inv_end content ci cb acc is_end st :
  py_truthy is_end = true ->
  walk_inv content ci cb acc is_end (Return acc, st, []).
Proof.
  intros H. unfold walk_inv. split_and!; try done.
  - intros res [= <-] _. by rewrite app_nil_r.
  - intros res [= <-]. by rewrite app_nil_r.
  - intros res _ H'. congruence.
Qed.

Lemma walk_inv_out_of_fuel content ci cb acc is_end st :
  walk_inv content ci cb acc is_end (OutOfFuel, st, []).
Proof. unfold walk_inv. split_and!; done. Qed.

Lemma walk_inv_abort content ci cb acc is_end r st' t :
  (forall res, r <> Return res) ->
  Forall (fun cs => cs <> []) (all_callbacks_of t) ->
  chained acc (callbacks_of t) ->
  (cb = None -> callbacks_of t = []) ->
  alternates Fetch (skeleton t) ->
  Forall (fun d => d = ci) (delays_of t) ->
  walk_inv content ci cb acc is_end (r, st', t).
Proof.
  intros Hr H1 H2 H3 H4 H5. unfold walk_inv.
  split_and!; try done; intros res ->; by destruct (Hr res).
Qed.

(** The walk stops on the page it has just fetched, or the fetch failed. *)
Lemma walk_inv_stop content ci cb acc is_end r st' tg :
  callbacks_of tg = [] ->
  all_callbacks_of tg = [] ->
  delays_of tg = [] ->
  (skeleton tg = [Fetch] \/ skeleton tg = []) ->
  (forall res, r = Return res ->
     res = acc /\ skeleton tg = [Fetch] /\
     exists p, payloads_of tg = [p] /\
               (py_truthy p = true -> comments_of content p = [])) ->
  walk_inv content ci cb acc is_end (r, st', tg).
Proof.
  intros Hcb Hacb Hdl Hsk Hret. unfold walk_inv. rewrite Hcb, Hacb, Hdl.
  split_and!; try done.
  - intros res Hr _. destruct (Hret res Hr) as [-> _]. by rewrite app_nil_r.
  - intros res Hr. destruct (Hret res Hr) as (-> & _ & p & -> & Hp).
    destruct (py_truthy p) eqn:Ht.
    + rewrite filter_cons_True by done. simpl. rewrite Hp by done.
      by rewrite app_nil_r.
    + rewrite filter_cons_False by congruence. by rewrite app_nil_r.
  - by destruct Hsk as [-> | ->].
  - intros res Hr _. destruct (Hret res Hr) as (-> & -> & p & -> & Hp).
    exists p, Fetch. split_and!; [done | done |].
    split; [done|]. intros [Ht Hne]. by destruct Hne, (Hp Ht).
Qed.

(** The walk delivers the page it has just fetched and goes on. *)
Lemma walk_inv_step content ci cb acc is_end ie p cs r st' tg tcb tm tr :
  payloads_of tg = [p] -> skeleton tg = [Fetch] ->
  callbacks_of tg = [] -> all_callbacks_of tg = [] -> delays_of tg = [] ->
  py_truthy p = true -> cs = comments_of content p -> cs <> [] ->
  ((tcb = [] /\ cb = None) \/ (tcb = [EvCallback cs acc] /\ is_Some cb)) ->
  payloads_of tm = [] -> skeleton tm = [Delay] -> callbacks_of tm = [] ->
  delays_of tm = [ci] ->
  Forall (fun cs => cs <> []) (all_callbacks_of tm) ->
  (py_truthy ie = true -> tr = []) ->
  walk_inv content ci cb (acc ++ cs) ie (r, st', tr) ->
  walk_inv content ci cb acc is_end (r, st', tg ++ tcb ++ tm ++ tr).
Proof.
  intros Hpg Hsg Hcg Hag Hdg Hp Hcs Hne Htcb Hpm Hsm Hcm Hdm Ham Hie
    (I1 & I2 & I3 & I4 & I5 & I6 & I8 & I7).
  assert (payloads_of tcb = [] /\ skeleton tcb = [] /\ delays_of tcb = [] /\
          Forall (fun cs => cs <> []) (all_callbacks_of tcb))
    as (Hpc & Hsc & Hdc & Hac).
  { destruct Htcb as [[-> _] | [-> _]]; split_and!; try done.
    by apply Forall_cons. }
  unfold walk_inv.
  rewrite !all_callbacks_of_app, !callbacks_of_app, !skeleton_app, !payloads_of_app,
    !delays_of_app.
  rewrite Hpg, Hsg, Hcg, Hag, Hdg, Hpm, Hsm, Hcm, Hdm, Hpc, Hsc, Hdc. simpl.
  split_and!.
  - rewrite !Forall_app. done.
  - destruct Htcb as [[-> Hnone] | [-> _]]; simpl.
    + by rewrite (I3 Hnone).
    + done.
  - intros Hnone. destruct Htcb as [[-> _] | [_ [f Hf]]]; [|congruence].
    by rewrite (I3 Hnone).
  - intros res Hr Hsome. destruct Htcb as [[_ Hnone] | [-> _]].
    + rewrite Hnone in Hsome. by destruct Hsome.
    + simpl. rewrite (I4 res Hr Hsome). by rewrite app_assoc.
  - intros res Hr. rewrite filter_cons_True by done. simpl.
    rewrite (I5 res Hr), Hcs. by rewrite app_assoc.
  - done.
  - by apply Forall_cons.
  - intros res Hr _. destruct (py_truthy ie) eqn:Hti.
    + rewrite (Hie eq_refl). exists p, Delay. split_and!; [done | done |].
      split; [|done]. intros _. split; [done | by rewrite <- Hcs].
    + destruct (I7 res Hr eq_refl) as (p' & m' & Hlp & Hls & Hiff).
      exists p', m'. split_and!; [| | done].
      * by rewrite last_cons, Hlp.
      * by rewrite !last_cons, Hls.
Qed.

Lemma get_facts uri params st :
  let '(rg, st1, tg) := get uri params st in
  callbacks_of tg = [] /\ all_callbacks_of tg = [] /\ delays_of tg = [] /\
  (skeleton tg = [Fetch] \/ skeleton tg = []) /\
  rg <> OutOfFuel /\
  (forall p, rg = Return p -> payloads_of tg = [p] /\ skeleton tg = [Fetch]) /\
  Forall (get_event st (final_uri_of uri params)) tg /\
  (signs_of tg = [final_uri_of uri params] \/ signs_of tg = []) /\
  (forall p, rg = Return p -> signs_of tg = [final_uri_of uri params]) /\
  ((forall p, rg <> Return p) -> payloads_of tg = []).
Proof.
  pose proof (get_frame uri params st) as Hg.
  destruct (get uri params st) as [[rg st1] tg].
  destruct Hg as (_ & _ & _ & _ & _ & Hfuel & Hpay & Hcb & Hacb & Hsk & Hall & Hsg).
  split_and!; try done.
  - by eapply get_events_quiet.
  - destruct Hsk as [? | [? _]]; eauto.
  - intros p ->. split; [done|].
    by destruct Hsk as [? | [_ [e ?]]].
  - destruct Hsg as [? | [? _]]; eauto.
  - intros p ->. by destruct Hsg as [? | [_ [e ?]]].
  - intros Hne. destruct rg as [p| |]; [by destruct (Hne p) | done | done].
Qed.

Lemma child_loop_inv fuel content parent ci cb acc is_end offset st :
  walk_inv content ci cb acc is_end
    (child_loop fuel content parent ci cb acc is_end offset st).
Proof.
  revert acc is_end offset st.
  induction fuel as [|fuel IH]; intros acc is_end offset st;
    destruct (py_truthy is_end) eqn:He;
    try (rewrite child_loop_end by done; by apply walk_inv_end);
    try (rewrite child_loop_O by done; by apply walk_inv_out_of_fuel).
  rewrite child_loop_turn by done. rewrite bind_eq. unfold get_child_comments.
  pose proof (get_facts (child_comments_uri (comment_id parent))
                (Some (page_params offset 10 "sort")) st) as Hg.
  destruct (get _ _ st) as [[rg st1] tg].
  destruct Hg as (Hcb & Hacb & Hdl & Hsk & Hfuel & Hret & _ & _).
  destruct rg as [p|e|]; [| by apply walk_inv_stop | done].
  destruct (Hret p eq_refl) as [Hpay Hskf].
  unfold child_page.
  destruct (py_truthy p) eqn:Hp.
  2:{ rewrite app_nil_r. apply walk_inv_stop; try done.
      intros res [= <-]. split_and!; try done. exists p. split; [done|congruence]. }
  destruct (read_page content p) as [e|[[ie off] cs]] eqn:Hread.
  { rewrite app_nil_r. by apply walk_inv_stop. }
  destruct (read_page_inr _ _ _ _ _ Hread) as (-> & -> & Hcs).
  destruct cs as [|c cs].
  { rewrite app_nil_r. apply walk_inv_stop; try done.
    intros res [= <-]. split_and!; try done. exists p. split; [done|]. by rewrite <- Hcs. }
  destruct (call_callback_cases cb (c :: cs) acc st1)
    as [[-> Hnone] | (f & Hf & [[Hok ->] | (e & Hraise & ->)])].
  - specialize (IH (acc ++ c :: cs) (is_end_of p) (offset_of p) st1).
    pose proof (child_loop_end fuel content parent ci cb (acc ++ c :: cs)
                  (is_end_of p) (offset_of p)) as Hend.
    destruct (child_loop fuel content parent ci cb (acc ++ c :: cs) (is_end_of p)
                (offset_of p) st1) as [[r st'] tr] eqn:Hrun.
    apply (walk_inv_step content ci cb acc is_end (is_end_of p) p (c :: cs) r st'
             tg [] [EvSleep ci] tr); try done.
    + by left.
    + intros Ht. rewrite (Hend Ht) in Hrun. by injection Hrun as _ _ <-.
  - specialize (IH (acc ++ c :: cs) (is_end_of p) (offset_of p) st1).
    pose proof (child_loop_end fuel content parent ci cb (acc ++ c :: cs)
                  (is_end_of p) (offset_of p)) as Hend.
    destruct (child_loop fuel content parent ci cb (acc ++ c :: cs) (is_end_of p)
                (offset_of p) st1) as [[r st'] tr] eqn:Hrun.
    apply (walk_inv_step content ci cb acc is_end (is_end_of p) p (c :: cs) r st'
             tg [EvCallback (c :: cs) acc] [EvSleep ci] tr); try done.
    + right. by rewrite Hf.
    + intros Ht. rewrite (Hend Ht) in Hrun. by injection Hrun as _ _ <-.
  - apply walk_inv_abort; try done;
      rewrite ?all_callbacks_of_app, ?callbacks_of_app, ?skeleton_app, ?delays_of_app,
        ?Hcb, ?Hacb, ?Hdl, ?Hskf; simpl; try done.
    + by apply Forall_cons.
    + congruence.
Qed.

Lemma walk_inv_sink content ci cb acc is_end run :
  walk_inv content ci cb acc is_end run -> sink_inv cb acc run.
Proof.
  destruct run as [[r st'] t]. intros (I1 & I2 & I3 & I4 & _).
  by split_and!.
Qed.

Lemma chained_app acc l1 l2 :
  chained acc l1 -> chained (acc ++ concat (map fst l1)) l2 -> chained acc (l1 ++ l2).
Proof.
  revert acc. induction l1 as [|[cs seen] l1 IH]; intros acc H1 H2; simpl in *.
  - by rewrite app_nil_r in H2.
  - destruct H1 as [-> H1]. split; [done|]. apply IH; [done|].
    by rewrite <- app_assoc.
Qed.

Lemma child_for_inv fuel content comments ci cb acc st :
  sink_inv cb acc (child_for fuel content comments ci cb acc st).
Proof.
  revert acc st. induction comments as [|parent rest IH]; intros acc st; simpl.
  - unfold sink_inv. split_and!; try done.
    intros res [= <-] _. by rewrite app_nil_r.
  - destruct (sub_comment_count parent =? 0)%Z; [apply IH|].
    rewrite bind_eq.
    pose proof (walk_inv_sink _ _ _ _ _ _
                  (child_loop_inv fuel content parent ci cb acc (JBool false) "" st))
      as Hl.
    destruct (child_loop fuel content parent ci cb acc (JBool false) "" st)
      as [[[acc'|e|] st1] t1]; [| exact Hl | exact Hl].
    specialize (IH acc' st1).
    destruct (child_for fuel content rest ci cb acc' st1) as [[r st'] t2].
    destruct Hl as (L1 & L2 & L3 & L4), IH as (R1 & R2 & R3 & R4).
    unfold sink_inv. rewrite all_callbacks_of_app, callbacks_of_app.
    destruct cb as [f|].
    + specialize (L4 acc' eq_refl (ltac:(by eexists))). subst acc'.
      split_and!.
      * by rewrite Forall_app.
      * by apply chained_app.
      * done.
      * intros res Hr Hs. rewrite (R4 res Hr Hs).
        by rewrite map_app, concat_app, app_assoc.
    + rewrite (L3 eq_refl), (R3 eq_refl) in *. split_and!.
      * by rewrite Forall_app.
      * done.
      * done.
      * intros res _ [? ?]. done.
Qed.

Lemma sub_comments_inv fuel content comments ci cb st :
  sink_inv cb [] (get_comments_all_sub_comments fuel content comments ci cb st).
Proof.
  unfold get_comments_all_sub_comments.
  destruct ENABLE_GET_SUB_COMMENTS; simpl; [apply child_for_inv|].
  unfold sink_inv. split_and!; try done. by intros res [= <-] _.
Qed.

Lemma root_loop_inv fuel content ci cb result is_end offset st :
  walk_inv content ci cb result is_end
    (root_loop fuel content ci cb result is_end offset st).
Proof.
  revert result is_end offset st.
  induction fuel as [|fuel IH]; intros acc is_end offset st;
    destruct (py_truthy is_end) eqn:He;
    try (rewrite root_loop_end by done; by apply walk_inv_end);
    try (rewrite root_loop_O by done; by apply walk_inv_out_of_fuel).
  rewrite root_loop_turn by done. rewrite bind_eq. unfold get_root_comments.
  pose proof (get_facts (root_comments_uri (content_id content) (content_type content))
                (Some (page_params offset 10 "sort")) st) as Hg.
  destruct (get _ _ st) as [[rg st1] tg].
  destruct Hg as (Hcb & Hacb & Hdl & Hsk & Hfuel & Hret & _ & _).
  destruct rg as [p|e|]; [| by apply walk_inv_stop | done].
  destruct (Hret p eq_refl) as [Hpay Hskf].
  unfold root_page.
  destruct (py_truthy p) eqn:Hp.
  2:{ rewrite app_nil_r. apply walk_inv_stop; try done.
      intros res [= <-]. split_and!; try done. exists p. split; [done|congruence]. }
  destruct (read_page content p) as [e|[[ie off] cs]] eqn:Hread.
  { rewrite app_nil_r. by apply walk_inv_stop. }
  destruct (read_page_inr _ _ _ _ _ Hread) as (-> & -> & Hcs).
  destruct cs as [|c cs].
  { rewrite app_nil_r. apply walk_inv_stop; try done.
    intros res [= <-]. split_and!; try done. exists p. split; [done|]. by rewrite <- Hcs. }
  assert (forall tcb,
            (tcb = [] /\ cb = None) \/ (tcb = [EvCallback (c :: cs) acc] /\ is_Some cb) ->
            walk_inv content ci cb acc is_end
              (let '(r, st2, t2) :=
                 match get_comments_all_sub_comments fuel content (c :: cs) ci cb st1 with
                 | (Return _, st3, ts) =>
                     let '(r, st', tr) :=
                       root_loop fuel content ci cb (acc ++ c :: cs) (is_end_of p)
                         (offset_of p) st3 in
                     (r, st', tcb ++ EvSubWalk ts :: EvSleep ci :: tr)
                 | (Raise e, st3, ts) => (Raise e, st3, tcb ++ [EvSubWalk ts])
                 | (OutOfFuel, st3, ts) => (OutOfFuel, st3, tcb ++ [EvSubWalk ts])
                 end in
               (r, st2, tg ++ t2))) as Hgo.
  { intros tcb Htcb.
    pose proof (sub_comments_inv fuel content (c :: cs) ci cb st1) as Hsub.
    destruct (get_comments_all_sub_comments fuel content (c :: cs) ci cb st1)
      as [[rs st3] ts].
    destruct Hsub as (S1 & _).
    assert (Forall (fun cs => cs <> []) (all_callbacks_of tcb) /\
            chained acc (callbacks_of tcb) /\ (cb = None -> callbacks_of tcb = []) /\
            skeleton tcb = [] /\ delays_of tcb = []) as (T1 & T2 & T3 & T4 & T5).
    { destruct Htcb as [[-> ?] | [-> [f ->]]]; split_and!; try done.
      by apply Forall_cons. }
    assert (forall r, (forall res, r <> Return res) ->
              walk_inv content ci cb acc is_end (r, st3, tg ++ tcb ++ [EvSubWalk ts]))
      as Habort.
    { intros r Hr. apply walk_inv_abort; try done;
        rewrite ?all_callbacks_of_app, ?callbacks_of_app, ?skeleton_app, ?delays_of_app,
          ?Hcb, ?Hacb, ?Hdl, ?Hskf, ?T4, ?T5; simpl; try done.
      - rewrite !Forall_app. split_and!; [done | | done].
        change (Forall (fun cs => cs <> []) (all_callbacks (EvSubWalk ts))).
        by rewrite all_callbacks_sub.
      - by rewrite app_nil_r.
      - intros Hn. by rewrite (T3 Hn). }
    destruct rs as [subs|e|]; [| by apply Habort | by apply Habort].
    specialize (IH (acc ++ c :: cs) (is_end_of p) (offset_of p) st3).
    pose proof (root_loop_end fuel content ci cb (acc ++ c :: cs)
                  (is_end_of p) (offset_of p)) as Hend.
    destruct (root_loop fuel content ci cb (acc ++ c :: cs) (is_end_of p)
                (offset_of p) st3) as [[r st'] tr] eqn:Hrun.
    apply (walk_inv_step content ci cb acc is_end (is_end_of p) p (c :: cs) r st'
             tg tcb [EvSubWalk ts; EvSleep ci] tr); try done.
    - rewrite all_callbacks_of_cons, all_callbacks_sub, Forall_app. done.
    - intros Ht. rewrite (Hend Ht) in Hrun. by injection Hrun as _ _ <-. }
  destruct (call_callback_cases cb (c :: cs) acc st1)
    as [[-> Hnone] | (f & Hf & [[Hok ->] | (e & Hraise & ->)])].
  - apply Hgo. by left.
  - apply Hgo. right. by rewrite Hf.
  - apply walk_inv_abort; try done;
      rewrite ?all_callbacks_of_app, ?callbacks_of_app, ?skeleton_app, ?delays_of_app,
        ?Hcb, ?Hacb, ?Hdl, ?Hskf; simpl; try done.
    + by apply Forall_cons.
    + congruence.
Qed.

(** ** Which endpoint a walk calls *)

Lemma events_bind {A B} (P : event -> Prop) (m : M A) (k : A -> M B) st :
  Forall P (events_of (m st)) ->
  (forall a st1, Forall P (events_of (k a st1))) ->
  Forall P (events_of (bind m k st)).
Proof.
  unfold bind, events_of. destruct (m st) as [[[a|e|] st1] t1]; simpl;
    intros H1 H2; try done.
  specialize (H2 a st1). destruct (k a st1) as [[r st2] t2]. simpl in *.
  by apply Forall_app.
Qed.

Lemma events_lift {A} (P : event -> Prop) (x : exn + A) st :
  Forall P (events_of (lift x st)).
Proof. destruct x; constructor. Qed.

Lemma events_callback (P : event -> Prop) cb cs acc st :
  P (EvCallback cs acc) -> Forall P (events_of (call_callback cb cs acc st)).
Proof.
  intros H. destruct cb as [f|]; simpl; [|constructor].
  by apply Forall_cons.
Qed.

Lemma events_get (P : event -> Prop) uri params st :
  (forall e, get_event st (final_uri_of uri params) e -> P e) ->
  Forall P (events_of (get uri params st)).
Proof.
  intros H. pose proof (get_facts uri params st) as Hg.
  destruct (get uri params st) as [[rg st1] tg].
  destruct Hg as (_ & _ & _ & _ & _ & _ & Hall & _).
  eapply Forall_impl; [exact Hall | exact H].
Qed.

Lemma child_loop_calls fuel content parent ci cb acc is_end offset st :
  Forall (fun e => is_call e -> child_call parent e)
    (events_of (child_loop fuel content parent ci cb acc is_end offset st)).
Proof.
  revert acc is_end offset st.
  induction fuel as [|fuel IH]; intros acc is_end offset st;
    destruct (py_truthy is_end) eqn:He;
    try (rewrite child_loop_end by done; constructor);
    try (rewrite child_loop_O by done; constructor).
  rewrite child_loop_S by done.
  apply events_bind.
  { apply events_get. intros [] He'; simpl in *; try done; intros _.
    - exists offset. by rewrite He'.
    - destruct He' as (-> & -> & _). split; [done|]. by exists offset. }
  intros p st1. destruct (negb (py_truthy p)); [constructor|].
  apply events_bind; [apply events_lift|]. intros pg st2.
  apply events_bind; [apply events_lift|]. intros ie st3.
  apply events_bind; [apply events_lift|]. intros d st4.
  destruct (extract_comments content d) as [|c cs]; [constructor|].
  apply events_bind; [by apply events_callback|]. intros _ st5.
  apply events_bind; [by repeat constructor|]. intros _ st6.
  apply IH.
Qed.

Lemma child_for_calls fuel content comments ci cb acc st :
  Forall (fun e => is_call e ->
            exists parent, parent ∈ comments /\ sub_comment_count parent <> 0%Z
                           /\ child_call parent e)
    (events_of (child_for fuel content comments ci cb acc st)).
Proof.
  revert acc st. induction comments as [|parent rest IH]; intros acc st; simpl;
    [constructor|].
  destruct (sub_comment_count parent =? 0)%Z eqn:Hz.
  - eapply Forall_impl; [apply IH|]. intros e He Hc.
    destruct (He Hc) as (q & Hin & Hq). exists q. split; [by right | done].
  - apply Z.eqb_neq in Hz. apply events_bind.
    + eapply Forall_impl; [apply child_loop_calls|]. intros e He Hc.
      exists parent. split_and!; [by left | done | by apply He].
    + intros acc' st1. eapply Forall_impl; [apply IH|]. intros e He Hc.
      destruct (He Hc) as (q & Hin & Hq). exists q. split; [by right | done].
Qed.

Lemma sub_comments_calls fuel content comments ci cb st :
  Forall (allowed_child_call comments)
    (events_of (get_comments_all_sub_comments fuel content comments ci cb st)).
Proof.
  unfold get_comments_all_sub_comments.
  destruct ENABLE_GET_SUB_COMMENTS eqn:Hen; simpl; [|constructor].
  eapply Forall_impl; [apply child_for_calls|]. intros e He Hc.
  unfold allowed_child_call. split; [done | by apply He].
Qed.

Lemma child_for_no_replies fuel content comments ci cb acc st :
  no_replies comments ->
  child_for fuel content comments ci cb acc st = (Return acc, st, []).
Proof.
  induction 1 as [|parent rest Hz _ IH]; simpl; [done|].
  by rewrite Hz.
Qed.

Lemma sub_comments_none fuel content comments ci cb st :
  ENABLE_GET_SUB_COMMENTS = false \/ no_replies comments ->
  get_comments_all_sub_comments fuel content comments ci cb st = (Return [], st, []).
Proof.
  unfold get_comments_all_sub_comments. intros [-> | Hz]; [done|].
  destruct ENABLE_GET_SUB_COMMENTS; simpl; [|done].
  by apply child_for_no_replies.
Qed.

Lemma root_loop_calls fuel content ci cb result is_end offset st :
  Forall (root_level content)
    (events_of (root_loop fuel content ci cb result is_end offset st)).
Proof.
  revert result is_end offset st.
  induction fuel as [|fuel IH]; intros acc is_end offset st;
    destruct (py_truthy is_end) eqn:He;
    try (rewrite root_loop_end by done; constructor);
    try (rewrite root_loop_O by done; constructor).
  rewrite root_loop_S by done.
  apply events_bind.
  { apply events_get. intros [] He'; simpl in *; try done.
    - exists offset. by rewrite He'.
    - destruct He' as (-> & -> & _). split; [done|]. by exists offset. }
  intros p st1. destruct (negb (py_truthy p)); [constructor|].
  apply events_bind; [apply events_lift|]. intros pg st2.
  apply events_bind; [apply events_lift|]. intros ie st3.
  apply events_bind; [apply events_lift|]. intros d st4.
  destruct (extract_comments content d) as [|c cs]; [constructor|].
  apply events_bind; [by apply events_callback|]. intros _ st5.
  apply events_bind.
  { unfold in_sub_walk, events_of.
    pose proof (sub_comments_calls fuel content (c :: cs) ci cb st5) as Hs.
    destruct (get_comments_all_sub_comments fuel content (c :: cs) ci cb st5)
      as [[rs st6] ts]. simpl.
    apply Forall_cons. split; [|constructor]. simpl. by exists (c :: cs). }
  intros _ st6.
  apply events_bind; [by repeat constructor|]. intros _ st7.
  apply IH.
Qed.

(** ** A walk that is served its pages *)

Lemma can_sign_after st h :
  can_sign st -> can_sign (incr_sent (with_headers h st)).
Proof.
  intros [Hd (cookie & Hc & Hs)]. split; [done|].
  exists cookie. split; [|done]. simpl.
  rewrite lookup_total_app_l; [done|]. by eapply lookup_total_dict_lt.
Qed.

Lemma get_signed uri params st :
  can_sign st ->
  exists cookie zst zse,
    get uri params st
    = (let '(r, st', t) :=
         request "GET" (ZHIHU_URL +:+ final_uri_of uri params) (length (heap st)) false
           (with_headers (signed st zst zse) st) in
       (r, st', EvSign (final_uri_of uri params) cookie :: t)).
Proof.
  intros [Hd (cookie & Hc & Hs)].
  destruct (Hs (final_uri_of uri params)) as (d & zst & zse & Hsign & Hzst & Hzse).
  exists cookie, zst, zse. rewrite get_eq.
  rewrite (bind_Return _ _ _ _ _ _ (pre_headers_ok _ _ _ _ _ _ Hd Hc Hsign Hzst Hzse)).
  by destruct (request _ _ _ _ _) as [[r st'] t].
Qed.

Lemma interpret_page r p :
  status_code r = 200%Z -> json_body r = Some p -> well_formed_page p = true ->
  interpret false r = inr p.
Proof.
  intros Hs Hj Hw. unfold interpret. rewrite Hs, Hj. simpl.
  unfold well_formed_page in Hw.
  apply andb_prop in Hw as [Hw _]. apply andb_prop in Hw as [_ Hw].
  destruct (py_get p "error" JNull) as [e|err]; [done|].
  by destruct (py_truthy err).
Qed.

Lemma read_page_well_formed content p :
  well_formed_page p = true ->
  read_page content p = inr (is_end_of p, offset_of p, comments_of content p).
Proof.
  intros Hw. unfold well_formed_page in Hw.
  apply andb_prop in Hw as [Hw Hpg]. apply andb_prop in Hw as [Hw _].
  apply andb_prop in Hw as [Hd _].
  destruct p as [| | | | |d]; try done.
  unfold read_page, is_end_of, offset_of, comments_of, data_of.
  unfold paging_of in *. simpl in *.
  by destruct (match assoc "paging" d with Some x => x | None => JDict [] end).
Qed.

(** A signed GET that is answered by a well-formed page, or by a 404. *)
Lemma get_served uri params st res v :
  can_sign st ->
  net (sent st) = res ->
  attempt_outcome false res = Return v ->
  exists st1 tg,
    get uri params st = (Return v, st1, tg) /\
    can_sign st1 /\ sent st1 = S (sent st) /\
    requests_of tg = [("GET", ZHIHU_URL +:+ final_uri_of uri params)].
Proof.
  intros Hcs Hn Ho.
  destruct (get_signed uri params st Hcs) as (cookie & zst & zse & ->).
  unfold request. rewrite retrying_unfold, request_attempt_eq. simpl.
  rewrite Hn, Ho.
  eexists _, _. split_and!; [reflexivity | by apply can_sign_after | done | done].
Qed.

Lemma serves_outcome res p :
  serves res p -> well_formed_page p = true -> attempt_outcome false res = Return p.
Proof.
  intros (r & -> & Hs & Hj) Hw. simpl. by rewrite (interpret_page _ _ Hs Hj Hw).
Qed.

Lemma well_formed_truthy p : well_formed_page p = true -> py_truthy p = true.
Proof.
  unfold well_formed_page. intros Hw.
  apply andb_prop in Hw as [Hw _]. apply andb_prop in Hw as [Hw _].
  by apply andb_prop in Hw as [_ Hw].
Qed.

(** One turn of the root walk on a well-formed page whose comments have
    no replies to fetch and are accepted by the sink. *)
Lemma root_turn_served fuel content ci cb result is_end offset st p :
  py_truthy is_end = false ->
  can_sign st ->
  serves (net (sent st)) p ->
  well_formed_page p = true ->
  sink_accepts cb (comments_of content p) ->
  ENABLE_GET_SUB_COMMENTS = false \/ no_replies (comments_of content p) ->
  exists st1 tg tm,
    can_sign st1 /\ sent st1 = S (sent st) /\
    requests_of tg = [("GET", root_url content offset)] /\
    requests_of tm = [] /\
    root_loop (S fuel) content ci cb result is_end offset st
    = match comments_of content p with
      | [] => (Return result, st1, tg)
      | _ :: _ =>
          let '(r, st', tr) :=
            root_loop fuel content ci cb (result ++ comments_of content p)
              (is_end_of p) (offset_of p) st1 in
          (r, st', tg ++ tm ++ tr)
      end.
Proof.
  intros He Hcs Hserve Hw Hsink Hsub.
  destruct (get_served (root_comments_uri (content_id content) (content_type content))
              (Some (page_params offset 10 "sort")) st _ p Hcs eq_refl
              (serves_outcome _ _ Hserve Hw)) as (st1 & tg & Hget & Hcs1 & Hsent & Hreq).
  rewrite root_loop_turn by done. unfold get_root_comments.
  rewrite (bind_Return _ _ _ _ _ _ Hget). unfold root_page.
  rewrite (well_formed_truthy _ Hw), (read_page_well_formed _ _ Hw).
  destruct (comments_of content p) as [|c cs] eqn:Hc.
  { exists st1, tg, []. rewrite app_nil_r. by split_and!. }
  pose proof (sub_comments_none fuel content (c :: cs) ci cb st1 Hsub) as Hnosub.
  destruct (call_callback_cases cb (c :: cs) result st1)
    as [[-> Hnone] | (f & Hf & [[Hok ->] | (e & Hraise & _)])].
  - rewrite Hnosub.
    exists st1, tg, [EvSubWalk []; EvSleep ci]. split_and!; try done.
    by destruct (root_loop fuel content ci cb (result ++ c :: cs) (is_end_of p)
                   (offset_of p) st1) as [[r st'] tr].
  - rewrite Hnosub.
    exists st1, tg, [EvCallback (c :: cs) result; EvSubWalk []; EvSleep ci].
    split_and!; try done.
    by destruct (root_loop fuel content ci cb (result ++ c :: cs) (is_end_of p)
                   (offset_of p) st1) as [[r st'] tr].
  - rewrite (Hsink f Hf) in Hraise. discriminate.
Qed.

Lemma asked_next offset pages :
  asked offset pages ++ [next_offset offset pages] = offset :: map offset_of pages.
Proof.
  revert offset. induction pages as [|p ps IH]; intros offset; simpl; [done|].
  unfold next_offset in *. simpl. by rewrite IH.
Qed.

Lemma next_is_end_falsy content is_end pages :
  py_truthy is_end = false -> Forall (valid_page content) pages ->
  py_truthy (next_is_end is_end pages) = false.
Proof.
  intros He Hv. revert is_end He. induction Hv as [|p ps (_ & Hp & _) _ IH];
    intros is_end He; [done|].
  unfold next_is_end in *. simpl. by apply IH.
Qed.

Lemma served_from_tail st st1 p pages :
  sent st1 = S (sent st) -> served_from st (p :: pages) -> served_from st1 pages.
Proof.
  intros Hs H i q Hq. rewrite Hs.
  replace (S (sent st) + i) with (sent st + S i) by lia. by apply H.
Qed.

Lemma undisturbed_cons content cb p pages :
  undisturbed content cb (p :: pages) ->
  sink_accepts cb (comments_of content p) /\
  (ENABLE_GET_SUB_COMMENTS = false \/ no_replies (comments_of content p)) /\
  undisturbed content cb pages.
Proof.
  intros [Hs Hc]. apply Forall_cons in Hs as [Hs1 Hs2].
  split_and!; [done | |].
  - destruct Hc as [? | Hc]; [by left | right]. by apply Forall_cons in Hc as [? _].
  - split; [done|].
    destruct Hc as [? | Hc]; [by left | right]. by apply Forall_cons in Hc as [_ ?].
Qed.

(** The root walk on a run of valid pages: it asks for them in turn, each
    time with the offset of the page before, and goes on from there. *)
Lemma root_loop_served_pages content ci cb pages :
  forall fuel result is_end offset st,
    py_truthy is_end = false ->
    can_sign st ->
    Forall (valid_page content) pages ->
    served_from st pages ->
    undisturbed content cb pages ->
    exists st1 tp,
      can_sign st1 /\ sent st1 = sent st + length pages /\
      requests_of tp = get_requests content (asked offset pages) /\
      root_loop (length pages + fuel) content ci cb result is_end offset st
      = (let '(r, st', tr) :=
           root_loop fuel content ci cb
             (result ++ concat (map (comments_of content) pages))
             (next_is_end is_end pages) (next_offset offset pages) st1 in
         (r, st', tp ++ tr)).
Proof.
  induction pages as [|p ps IH]; intros fuel result is_end offset st He Hcs Hv Hsrv Hun.
  - exists st, []. simpl. rewrite app_nil_r. split_and!; [done | lia | done |].
    by destruct (root_loop fuel content ci cb result is_end offset st) as [[r st'] tr].
  - apply Forall_cons in Hv as [(Hw & Hpe & Hpc) Hv].
    destruct (undisturbed_cons _ _ _ _ Hun) as (Hsink & Hsub & Hun').
    assert (serves (net (sent st)) p) as Hserve.
    { rewrite <- (Nat.add_0_r (sent st)). by apply Hsrv. }
    destruct (root_turn_served (length ps + fuel) content ci cb result is_end offset st p
                He Hcs Hserve Hw Hsink Hsub)
      as (st1 & tg & tm & Hcs1 & Hsent & Hrg & Hrm & Hturn).
    destruct (IH fuel (result ++ comments_of content p) (is_end_of p) (offset_of p) st1
                Hpe Hcs1 Hv (served_from_tail _ _ _ _ Hsent Hsrv) Hun')
      as (st2 & tp & Hcs2 & Hsent2 & Hrp & Hrest).
    exists st2, (tg ++ tm ++ tp). split_and!; [done | simpl; lia | |].
    + rewrite !requests_of_app, Hrg, Hrm, Hrp. reflexivity.
    + change (length (p :: ps) + fuel) with (S (length ps + fuel)).
      rewrite Hturn. destruct (comments_of content p) as [|c cs] eqn:Hc; [done|].
      rewrite Hrest.
      change (next_is_end is_end (p :: ps)) with (next_is_end (is_end_of p) ps).
      change (next_offset offset (p :: ps)) with (next_offset (offset_of p) ps).
      change (concat (map (comments_of content) (p :: ps)))
        with (comments_of content p ++ concat (map (comments_of content) ps)).
      rewrite Hc, (app_assoc result).
      destruct (root_loop fuel content ci cb _ _ _ st2) as [[r st'] tr].
      by rewrite <- !app_assoc.
Qed.

Lemma root_turn_404 fuel content ci cb result is_end offset st r :
  py_truthy is_end = false ->
  can_sign st ->
  net (sent st) = HttpResponse r -> status_code r = 404%Z ->
  exists st1 tg,
    sent st1 = S (sent st) /\
    requests_of tg = [("GET", root_url content offset)] /\
    root_loop (S fuel) content ci cb result is_end offset st = (Return result, st1, tg).
Proof.
  intros He Hcs Hn Hs.
  assert (attempt_outcome false (HttpResponse r) = Return (JDict [])) as Ho.
  { simpl. by rewrite interpret_404. }
  destruct (get_served (root_comments_uri (content_id content) (content_type content))
              (Some (page_params offset 10 "sort")) st _ _ Hcs Hn Ho)
    as (st1 & tg & Hget & _ & Hsent & Hreq).
  exists st1, tg. split_and!; [done | done |].
  rewrite root_loop_turn by done. unfold get_root_comments.
  rewrite (bind_Return _ _ _ _ _ _ Hget). unfold root_page. simpl.
  by rewrite app_nil_r.
Qed.

Lemma child_turn_404 fuel content parent ci cb acc is_end offset st r :
  py_truthy is_end = false ->
  can_sign st ->
  net (sent st) = HttpResponse r -> status_code r = 404%Z ->
  exists st1 tg,
    sent st1 = S (sent st) /\
    requests_of tg
    = [("GET", ZHIHU_URL +:+ child_uri_with (comment_id parent) offset)] /\
    child_loop (S fuel) content parent ci cb acc is_end offset st = (Return acc, st1, tg).
Proof.
  intros He Hcs Hn Hs.
  assert (attempt_outcome false (HttpResponse r) = Return (JDict [])) as Ho.
  { simpl. by rewrite interpret_404. }
  destruct (get_served (child_comments_uri (comment_id parent))
              (Some (page_params offset 10 "sort")) st _ _ Hcs Hn Ho)
    as (st1 & tg & Hget & _ & Hsent & Hreq).
  exists st1, tg. split_and!; [done | done |].
  rewrite child_loop_turn by done. unfold get_child_comments.
  rewrite (bind_Return _ _ _ _ _ _ Hget). unfold child_page. simpl.
  by rewrite app_nil_r.
Qed.

Lemma signs_of_app t1 t2 : signs_of (t1 ++ t2) = signs_of t1 ++ signs_of t2.
Proof. apply omap_app. Qed.

(** What a turn of the root walk adds to the signing calls and to the
    payloads, after the fetch: nothing, or what the rest of the walk adds
    from the offset of the page in hand. *)
Lemma root_page_thread fuel content ci cb result p st1 :
  let '(_, _, t) := root_page fuel content ci cb result p st1 in
  (signs_of t = [] /\ payloads_of t = []) \/
  (exists acc ie st3,
      let '(_, _, tr) := root_loop fuel content ci cb acc ie (offset_of p) st3 in
      signs_of t = signs_of tr /\ payloads_of t = payloads_of tr).
Proof.
  unfold root_page.
  destruct (py_truthy p); [|(simpl; by left)].
  destruct (read_page content p) as [e|[[ie off] cs]] eqn:Hread; [(simpl; by left)|].
  destruct (read_page_inr _ _ _ _ _ Hread) as (_ & -> & _).
  destruct cs as [|c cs]; [(simpl; by left)|].
  destruct (call_callback_cases cb (c :: cs) result st1)
    as [[-> _] | (f & _ & [[_ ->] | (e & _ & ->)])]; [| | (simpl; by left)].
  - destruct (get_comments_all_sub_comments fuel content (c :: cs) ci cb st1)
      as [[[subs|e|] st3] ts]; [| (simpl; by left) | (simpl; by left)].
    destruct (root_loop fuel content ci cb (result ++ c :: cs) ie (offset_of p) st3)
      as [[r st'] tr] eqn:Hrun.
    right. exists (result ++ c :: cs), ie, st3. by rewrite Hrun.
  - destruct (get_comments_all_sub_comments fuel content (c :: cs) ci cb st1)
      as [[[subs|e|] st3] ts]; [| (simpl; by left) | (simpl; by left)].
    destruct (root_loop fuel content ci cb (result ++ c :: cs) ie (offset_of p) st3)
      as [[r st'] tr] eqn:Hrun.
    right. exists (result ++ c :: cs), ie, st3. by rewrite Hrun.
Qed.

(** In every run of the root walk, the URLs signed, one per page fetch,
    are those of the root endpoint with the offsets threaded: first the
    one the walk starts from, then the offset of each payload received. *)
Lemma root_loop_threads fuel content ci cb result is_end offset st :
  let '(_, _, t) := root_loop fuel content ci cb result is_end offset st in
  signs_of t `prefix_of`
    map (root_uri_with content) (offset :: map offset_of (payloads_of t)) /\
  length (payloads_of t) <= length (signs_of t).
Proof.
  revert result is_end offset st.
  induction fuel as [|fuel IH]; intros acc is_end offset st;
    destruct (py_truthy is_end) eqn:He;
    try (rewrite root_loop_end by done; split; [apply prefix_nil | done]);
    try (rewrite root_loop_O by done; split; [apply prefix_nil | done]).
  rewrite root_loop_turn by done. rewrite bind_eq. unfold get_root_comments.
  pose proof (get_facts (root_comments_uri (content_id content) (content_type content))
                (Some (page_params offset 10 "sort")) st) as Hg.
  destruct (get _ _ st) as [[rg st1] tg].
  destruct Hg as (_ & _ & _ & _ & _ & Hret & _ & Hsg & Hsgr & Hnp).
  change (final_uri_of _ _) with (root_uri_with content offset) in *.
  destruct rg as [p|e|].
  2,3: rewrite Hnp by done; destruct Hsg as [-> | ->];
         (split; [|simpl; lia]);
         [apply prefix_cons, prefix_nil | apply prefix_nil].
  destruct (Hret p eq_refl) as [Hpay _]. specialize (Hsgr p eq_refl).
  pose proof (root_page_thread fuel content ci cb acc p st1) as Hp.
  destruct (root_page fuel content ci cb acc p st1) as [[r st'] t].
  rewrite signs_of_app, payloads_of_app, Hsgr, Hpay.
  destruct Hp as [[-> ->] | (acc' & ie & st3 & Hp)].
  - simpl. split; [apply prefix_cons, prefix_nil | lia].
  - specialize (IH acc' ie (offset_of p) st3).
    destruct (root_loop fuel content ci cb acc' ie (offset_of p) st3) as [[r' st''] tr].
    destruct Hp as [-> ->]. destruct IH as [IH1 IH2]. simpl.
    split; [by apply prefix_cons | lia].
Qed.

(** ** C1: the root walk threads the offsets *)

(** C1.  Let the session be able to sign, and let the network answer the
    next exchanges with the valid pages [pages] ([is_end] false, comments
    in them) and then with [final] ([is_end] true), while the sink accepts
    every page and no comment has replies to fetch.  Then, with enough
    fuel, the root walk returns: its result is the comments of all the
    pages in order, and its requests are exactly one GET of the
    root-comment URL per page, the first with offset [""], each later
    one with the offset that the page before carried, and none after
    [final]. *)
Theorem root_walk_follows_offsets content ci cb pages final fuel st :
  can_sign st ->
  Forall (valid_page content) pages ->
  final_page final ->
  served_from st (pages ++ [final]) ->
  undisturbed content cb (pages ++ [final]) ->
  length pages < fuel ->
  exists st' t,
    get_note_all_comments fuel content ci cb st
    = (Return (concat (map (comments_of content) (pages ++ [final]))), st', t) /\
    requests_of t = get_requests content (offsets_for pages) /\
    sent st' = sent st + length pages + 1.
Proof.
  intros Hcs Hv [Hfw Hfe] Hsrv [Hsink Hsub] Hfuel.
  assert (served_from st pages) as Hsrv1.
  { intros i p Hp. apply Hsrv. by apply lookup_app_l_Some. }
  assert (undisturbed content cb pages /\ undisturbed content cb [final])
    as [Hun1 Hun2].
  { apply Forall_app in Hsink as [? ?]. unfold undisturbed.
    destruct Hsub as [? | Hsub]; [split_and!; try done; by left|].
    apply Forall_app in Hsub as [? ?]. split_and!; try done; by right. }
  destruct (undisturbed_cons _ _ _ _ Hun2) as (Hfs & Hfc & _).
  destruct (Nat.le_exists_sub (S (length pages)) fuel Hfuel) as (k & -> & _).
  replace (k + S (length pages)) with (length pages + S k) by lia.
  unfold get_note_all_comments.
  destruct (root_loop_served_pages content ci cb pages (S k) [] (JBool false) "" st
              eq_refl Hcs Hv Hsrv1 Hun1) as (st1 & tp & Hcs1 & Hsent1 & Hrp & ->).
  assert (serves (net (sent st1)) final) as Hserve.
  { rewrite Hsent1. apply Hsrv. by apply list_lookup_middle. }
  pose proof (next_is_end_falsy content (JBool false) pages eq_refl Hv) as He.
  destruct (root_turn_served k content ci cb
              (concat (map (comments_of content) pages))
              (next_is_end (JBool false) pages) (next_offset "" pages) st1 final
              He Hcs1 Hserve Hfw Hfs Hfc)
    as (st2 & tg & tm & _ & Hsent2 & Hrg & Hrm & Hturn).
  rewrite app_nil_l, Hturn.
  assert (get_requests content (asked "" pages)
          ++ [("GET", root_url content (next_offset "" pages))]
          = get_requests content (offsets_for pages)) as Hreqs.
  { unfold offsets_for. rewrite <- asked_next. unfold get_requests.
    by rewrite map_app. }
  rewrite map_app, concat_app. simpl. rewrite app_nil_r.
  destruct (comments_of content final) as [|c cs] eqn:Hc.
  - exists st2, (tp ++ tg). rewrite app_nil_r. split_and!; [done | | lia].
    by rewrite requests_of_app, Hrp, Hrg.
  - rewrite root_loop_end by done.
    exists st2, (tp ++ tg ++ tm ++ []). split_and!; [done | | lia].
    by rewrite !requests_of_app, Hrp, Hrg, Hrm, !app_nil_r.
Qed.

(** ** C5: a 404 is the end of the data *)

(** C5.  A 404 is not an error for [request]: the first attempt returns
    the empty dict, with one exchange and no retry.  A walk that gets it
    stops there: when the root walk has been served the valid pages
    [pages] and the next answer is a 404, it returns the comments of
    [pages], and its last request is the one that was answered 404.  The
    walk under a parent comment stops on a 404 in the same way. *)
Theorem not_found_ends_the_walk content ci cb pages fuel st r :
  can_sign st ->
  Forall (valid_page content) pages ->
  served_from st pages ->
  undisturbed content cb pages ->
  net (sent st + length pages) = HttpResponse r ->
  status_code r = 404%Z ->
  length pages < fuel ->
  (forall m u hl rr s,
      sent s = sent st + length pages ->
      request m u hl rr s
      = (Return (JDict []), incr_sent s, [EvHttp m u (heap s !!! hl) (HttpResponse r)])) /\
  (exists st' t,
      get_note_all_comments fuel content ci cb st
      = (Return (concat (map (comments_of content) pages)), st', t) /\
      requests_of t = get_requests content (offsets_for pages) /\
      sent st' = sent st + length pages + 1) /\
  (forall parent acc offset s,
      can_sign s -> sent s = sent st + length pages ->
      exists s' t,
        child_loop fuel content parent ci cb acc (JBool false) offset s
        = (Return acc, s', t) /\
        requests_of t
        = [("GET", ZHIHU_URL +:+ child_uri_with (comment_id parent) offset)]).
Proof.
  intros Hcs Hv Hsrv Hun Hn Hs Hfuel.
  destruct (Nat.le_exists_sub (S (length pages)) fuel Hfuel) as (k & -> & _).
  split_and!.
  - intros m u hl rr s Hsent. apply request_first_returns.
    + by rewrite Hsent.
    + by apply interpret_404.
  - replace (k + S (length pages)) with (length pages + S k) by lia.
    unfold get_note_all_comments.
    destruct (root_loop_served_pages content ci cb pages (S k) [] (JBool false) "" st
                eq_refl Hcs Hv Hsrv Hun) as (st1 & tp & Hcs1 & Hsent1 & Hrp & ->).
    pose proof (next_is_end_falsy content (JBool false) pages eq_refl Hv) as He.
    rewrite <- Hsent1 in Hn.
    destruct (root_turn_404 k content ci cb (concat (map (comments_of content) pages))
                (next_is_end (JBool false) pages) (next_offset "" pages) st1 r
                He Hcs1 Hn Hs) as (st2 & tg & Hsent2 & Hrg & Hturn).
    rewrite app_nil_l, Hturn. exists st2, (tp ++ tg). split_and!; [done | | lia].
    rewrite requests_of_app, Hrp, Hrg. unfold offsets_for.
    rewrite <- asked_next. unfold get_requests. by rewrite map_app.
  - intros parent acc offset s Hcss Hsent.
    replace (k + S (length pages)) with (S (k + length pages)) by lia.
    rewrite <- Hsent in Hn.
    destruct (child_turn_404 (k + length pages) content parent ci cb acc (JBool false)
                offset s r eq_refl Hcss Hn Hs) as (s1 & tg & _ & Hrg & Hturn).
    by exists s1, tg.
Qed.

(** ** C4: where the inter-page delay falls *)

(** C4, as the code has it.  In every run of the root walk, and of the
    walk under one parent comment, page fetches and delays alternate,
    starting with a fetch, and every delay is the configured one: so the
    delay is awaited between two fetches of the same walk.  The delay
    comes at the end of each turn that delivered its page, the last
    one included: when the walk returns, it has slept after its last
    page exactly when that page was truthy and carried comments, and has
    not when it stopped on an empty payload or an empty extraction. *)
Theorem delay_follows_every_delivered_page fuel content ci cb st :
  (let '(r, _, t) := get_note_all_comments fuel content ci cb st in
   alternates Fetch (skeleton t) /\
   Forall (fun d => d = ci) (delays_of t) /\
   forall res, r = Return res ->
     exists p m, last (payloads_of t) = Some p /\ last (skeleton t) = Some m /\
                 (m = Delay <-> delivers content p)) /\
  (forall parent acc offset,
     let '(r, _, t) :=
       child_loop fuel content parent ci cb acc (JBool false) offset st in
     alternates Fetch (skeleton t) /\
     Forall (fun d => d = ci) (delays_of t) /\
     forall res, r = Return res ->
       exists p m, last (payloads_of t) = Some p /\ last (skeleton t) = Some m /\
                   (m = Delay <-> delivers content p)).
Proof.
  split.
  - pose proof (root_loop_inv fuel content ci cb [] (JBool false) "" st) as H.
    unfold get_note_all_comments.
    destruct (root_loop fuel content ci cb [] (JBool false) "" st) as [[r st'] t].
    destruct H as (_ & _ & _ & _ & _ & Ha & Hd & Hl).
    split_and!; [done | done |]. intros res Hr. by apply (Hl res).
  - intros parent acc offset.
    pose proof (child_loop_inv fuel content parent ci cb acc (JBool false) offset st)
      as H.
    destruct (child_loop fuel content parent ci cb acc (JBool false) offset st)
      as [[r st'] t].
    destruct H as (_ & _ & _ & _ & _ & Ha & Hd & Hl).
    split_and!; [done | done |]. intros res Hr. by apply (Hl res).
Qed.

(** ** C6: when the child endpoint is called *)

(** C6.  Every call that [get_comments_all_sub_comments] makes, signing
    or HTTP, is a GET of the child-comment URL of one of the given
    comments whose [sub_comment_count] is not zero, and is made with the
    flag on.  With the flag off it returns the empty list without any
    effect, whatever the counts are; so it does when every count is
    zero.  The root walk itself calls the root endpoint only: the calls
    to the child endpoint all sit in the nodes of its child walks. *)
Theorem child_endpoint_needs_flag_and_replies fuel content comments ci cb st :
  Forall (allowed_child_call comments)
    (events_of (get_comments_all_sub_comments fuel content comments ci cb st)) /\
  (ENABLE_GET_SUB_COMMENTS = false ->
   get_comments_all_sub_comments fuel content comments ci cb st = (Return [], st, [])) /\
  (no_replies comments ->
   get_comments_all_sub_comments fuel content comments ci cb st = (Return [], st, [])) /\
  Forall (root_level content)
    (events_of (get_note_all_comments fuel content ci cb st)).
Proof.
  split_and!.
  - apply sub_comments_calls.
  - intros H. apply sub_comments_none. by left.
  - intros H. apply sub_comments_none. by right.
  - apply root_loop_calls.
Qed.

(** ** C9: what the root walk returns *)

(** C9.  The trace of the root walk holds, at its own level, calls to the
    root-comment endpoint only; what the child walks fetch stays in
    their nodes.  When the walk returns, its result is exactly the
    concatenation, in fetch order, of the comments extracted from the
    truthy payloads of those root-level exchanges: nothing that a child
    walk fetched or returned is in it. *)
Theorem result_is_the_root_pages fuel content ci cb st :
  let '(r, _, t) := get_note_all_comments fuel content ci cb st in
  Forall (root_level content) t /\
  forall res, r = Return res ->
    res = concat (map (comments_of content)
                    (filter (fun p => py_truthy p = true) (payloads_of t))).
Proof.
  pose proof (root_loop_inv fuel content ci cb [] (JBool false) "" st) as H.
  pose proof (root_loop_calls fuel content ci cb [] (JBool false) "" st) as Hc.
  unfold get_note_all_comments.
  destruct (root_loop fuel content ci cb [] (JBool false) "" st) as [[r st'] t].
  destruct H as (_ & _ & _ & _ & H & _).
  split; [done|]. intros res Hr. by rewrite (H res Hr).
Qed.

(** ** C10: what the sink is called with *)

(** C10.  In every run of the root walk, whatever its outcome, every call
    of the sink (those of the child walks included) gets a non-empty
    list.  Each call of the root walk finds the accumulator holding
    exactly what the earlier calls delivered, so the page in hand is
    not yet in it; and when the walk returns with a sink given, the
    result is what the calls delivered, in order.  The same holds for
    [get_comments_all_sub_comments] and its accumulator. *)
Theorem sink_gets_nonempty_pages_first fuel content ci cb st :
  (let '(r, _, t) := get_note_all_comments fuel content ci cb st in
   Forall (fun cs => cs <> []) (all_callbacks_of t) /\
   chained [] (callbacks_of t) /\
   forall res, r = Return res -> is_Some cb ->
     res = concat (map fst (callbacks_of t))) /\
  (forall comments,
     let '(r, _, t) := get_comments_all_sub_comments fuel content comments ci cb st in
     Forall (fun cs => cs <> []) (all_callbacks_of t) /\
     chained [] (callbacks_of t) /\
     forall res, r = Return res -> is_Some cb ->
       res = concat (map fst (callbacks_of t))).
Proof.
  split.
  - pose proof (walk_inv_sink _ _ _ _ _ _
                  (root_loop_inv fuel content ci cb [] (JBool false) "" st)) as H.
    unfold get_note_all_comments.
    destruct (root_loop fuel content ci cb [] (JBool false) "" st) as [[r st'] t].
    destruct H as (H1 & H2 & _ & H4). split_and!; [done | done |].
    intros res Hr Hs. by rewrite (H4 res Hr Hs).
  - intros comments.
    pose proof (sub_comments_inv fuel content comments ci cb st) as H.
    destruct (get_comments_all_sub_comments fuel content comments ci cb st)
      as [[r st'] t].
    destruct H as (H1 & H2 & _ & H4). split_and!; [done | done |].
    intros res Hr Hs. by rewrite (H4 res Hr Hs).
Qed.

(** * Further properties of the client *)

(** ** The retried request: how many exchanges, and what comes out *)

Lemma waits_of_cons e t :
  waits_of (e :: t)
  = match e with EvRetryWait w => w :: waits_of t | _ => waits_of t end.
Proof. by destruct e. Qed.

Lemma retrying_accounting more m u hl rr st :
  let '(r, st', t) := retrying more 1 (request_attempt m u hl rr) st in
  1 <= length (requests_of t) <= S more /\
  waits_of t = replicate (length (requests_of t) - 1) 1%Z /\
  sent st' = sent st + length (requests_of t) /\
  (forall e, r = Raise e ->
     length (requests_of t) = S more /\
     exists e', e = RetryError e'
                /\ attempt_outcome rr (net (sent st + more)) = Raise e') /\
  (forall v, r = Return v ->
     attempt_outcome rr (net (sent st + length (requests_of t) - 1)) = Return v).
Proof.
  revert st. induction more as [|more IH]; intros st;
    rewrite retrying_unfold, request_attempt_eq;
    pose proof (attempt_outcome_fuel rr (net (sent st))) as Hf;
    destruct (attempt_outcome rr (net (sent st))) as [v|e|] eqn:Ho; try done.
  - simpl. split_and!; try done; try lia.
    intros v' [= <-]. by replace (sent st + 1 - 1) with (sent st) by lia.
  - simpl. split_and!; try done; try lia.
    intros e0 [= <-]. split; [done|]. exists e. split; [done|].
    by rewrite Nat.add_0_r.
  - simpl. split_and!; try done; try lia.
    intros v' [= <-]. by replace (sent st + 1 - 1) with (sent st) by lia.
  - specialize (IH (incr_sent st)).
    destruct (retrying more 1 (request_attempt m u hl rr) (incr_sent st))
      as [[r st2] t2].
    destruct IH as (Hn & Hw & Hs & Hraise & Hret).
    cbn [app]. rewrite requests_of_cons, waits_of_cons, requests_of_cons, waits_of_cons.
    simpl in Hs. simpl length.
    split_and!.
    + lia.
    + lia.
    + rewrite Hw. destruct (length (requests_of t2)) as [|k]; [lia|].
      simpl. by rewrite Nat.sub_0_r.
    + lia.
    + intros e0 Hr. destruct (Hraise e0 Hr) as (Hlen & e' & -> & Hlast).
      split; [lia|]. exists e'. split; [done|].
      simpl in Hlast. by replace (sent st + S more) with (S (sent st) + more) by lia.
    + intros v Hr. specialize (Hret v Hr). simpl in Hret.
      by replace (sent st + S (length (requests_of t2)) - 1)
        with (S (sent st) + length (requests_of t2) - 1) by lia.
Qed.


(** ** What a signed GET can return *)

Lemma interpret_inr r v :
  interpret false r = inr v ->
  is_dict v = true /\
  ((status_code r = 404%Z /\ v = JDict []) \/
   (status_code r = 200%Z /\ json_body r = Some v /\
    exists err, py_get v "error" JNull = inr err /\ py_truthy err = false)).
Proof.
  unfold interpret.
  destruct (status_code r =? 200)%Z eqn:H200; simpl.
  - apply Z.eqb_eq in H200.
    destruct (json_body r) as [data|]; [|done].
    destruct (py_get data "error" JNull) as [e|err] eqn:Herr; [done|].
    destruct (py_truthy err) eqn:Ht.
    + by destruct (py_get err "message" JNull).
    + intros [= <-]. split.
      * destruct data; try done.
      * right. split_and!; [done | done |]. by exists err.
  - destruct (status_code r =? 403)%Z; [done|].
    destruct (status_code r =? 404)%Z eqn:H404; [|done].
    apply Z.eqb_eq in H404. intros [= <-]. split; [done|]. by left.
Qed.

(** X2.  A signed GET hands back dicts only.  When it returns [v], the
    last exchange it made was answered either by a 404, and [v] is the
    empty dict, or by a 200 whose JSON body is the dict [v] itself, without
    a truthy [error] field.  No other status, and no JSON that is not a
    dict, ever reaches the caller as a value. *)
Theorem get_returns_only_dicts uri params st :
  let '(r, st', t) := get uri params st in
  forall v, r = Return v ->
    is_dict v = true /\
    sent st < sent st' /\
    exists resp,
      net (sent st' - 1) = HttpResponse resp /\
      ((status_code resp = 404%Z /\ v = JDict []) \/
       (status_code resp = 200%Z /\ json_body resp = Some v /\
        exists err, py_get v "error" JNull = inr err /\ py_truthy err = false)).
Proof.
  destruct (get_cases uri params st)
    as [(e & st' & t & -> & _)
       | (cookie & zst & zse & r & st' & t2 & Hlt & Hreq & ->)]; [done|].
  pose proof (retrying_accounting 2 "GET" (ZHIHU_URL +:+ final_uri_of uri params)
                (length (heap st)) false (with_headers (signed st zst zse) st)) as Ha.
  change (retrying 2 1 _ _) with
    (request "GET" (ZHIHU_URL +:+ final_uri_of uri params) (length (heap st)) false
       (with_headers (signed st zst zse) st)) in Ha.
  rewrite Hreq in Ha.
  destruct Ha as (Hn & _ & Hs & _ & Hret). simpl in Hs.
  intros v ->. specialize (Hret v eq_refl). simpl in Hret.
  replace (sent st + length (requests_of t2) - 1) with (sent st' - 1) in Hret by lia.
  unfold attempt_outcome in Hret.
  destruct (net (sent st' - 1)) as [e|resp]; [done|].
  destruct (interpret false resp) as [e|v'] eqn:Hi; [done|].
  injection Hret as ->.
  destruct (interpret_inr _ _ Hi) as [Hd Hcases].
  split_and!; [done | lia |]. by exists resp.
Qed.

(** ** The liveness probe: [pong] *)



(** A signed GET whose three attempts all fail. *)
Lemma get_three_failures uri params st e1 e2 e3 :
  can_sign st ->
  attempt_outcome false (net (sent st)) = Raise e1 ->
  attempt_outcome false (net (sent st + 1)) = Raise e2 ->
  attempt_outcome false (net (sent st + 2)) = Raise e3 ->
  exists st' t,
    get uri params st = (Raise (RetryError e3), st', t) /\
    requests_of t = replicate 3 ("GET", ZHIHU_URL +:+ final_uri_of uri params) /\
    waits_of t = [1%Z; 1%Z] /\
    sent st' = sent st + 3.
Proof.
  intros Hcs H1 H2 H3.
  destruct (get_signed uri params st Hcs) as (cookie & zst & zse & ->).
  replace (sent st + 1) with (S (sent st)) in H2 by lia.
  replace (sent st + 2) with (S (S (sent st))) in H3 by lia.
  unfold request. change (stop_after_attempt 3) with 2.
  rewrite retrying_unfold, request_attempt_eq.
  cbn [sent with_headers set_heap incr_sent]. rewrite H1. cbv beta iota.
  rewrite retrying_unfold, request_attempt_eq.
  cbn [sent with_headers set_heap incr_sent]. rewrite H2. cbv beta iota.
  rewrite retrying_unfold, request_attempt_eq.
  cbn [sent with_headers set_heap incr_sent]. rewrite H3. cbv beta iota.
  eexists _, _. split_and!; [reflexivity | done | done | simpl; lia].
Qed.

Lemma status_403_raises r :
  status_code r = 403%Z ->
  attempt_outcome false (HttpResponse r) = Raise (ForbiddenError (text r)).
Proof. intros H. simpl. by rewrite interpret_403. Qed.

(** X4.  On a session that cannot work, [pong] answers [False] instead
    of raising.  Without [d_c0] it does so at once, with no signing and
    no exchange.  When the platform answers 403 to all three attempts of
    the probe, it does so after exactly three exchanges and two waits. *)
Theorem pong_false_on_dead_session st :
  (cookie_dict st !! "d_c0" = None -> pong st = (Return false, st, [])) /\
  (can_sign st ->
   (forall i, i < 3 ->
      exists r, net (sent st + i) = HttpResponse r /\ status_code r = 403%Z) ->
   exists st' t,
     pong st = (Return false, st', t) /\
     length (requests_of t) = 3 /\ waits_of t = [1%Z; 1%Z] /\
     sent st' = sent st + 3).
Proof.
  split.
  - intros Hd. unfold pong, try_except, get_current_user_info.
    rewrite bind_eq.
    assert (get "/api/v4/me" (Some [("include", PStr "email,is_active,is_bind_phone")]) st
            = (Raise (Exception "d_c0 not found in cookies"), st, [])) as ->.
    { rewrite get_eq. apply bind_Raise. by apply pre_headers_no_d_c0. }
    reflexivity.
  - intros Hcs H403.
    destruct (H403 0 ltac:(lia)) as (r1 & Hn1 & Hs1).
    destruct (H403 1 ltac:(lia)) as (r2 & Hn2 & Hs2).
    destruct (H403 2 ltac:(lia)) as (r3 & Hn3 & Hs3).
    rewrite Nat.add_0_r in Hn1.
    destruct (get_three_failures "/api/v4/me"
                (Some [("include", PStr "email,is_active,is_bind_phone")]) st
                (ForbiddenError (text r1)) (ForbiddenError (text r2))
                (ForbiddenError (text r3)) Hcs)
      as (st' & t & Hget & Hreq & Hw & Hsent).
    { rewrite Hn1. by apply status_403_raises. }
    { rewrite Hn2. by apply status_403_raises. }
    { rewrite Hn3. by apply status_403_raises. }
    exists st', t. split_and!; [| by rewrite Hreq | done | done].
    unfold pong, try_except, get_current_user_info. rewrite bind_eq, Hget.
    simpl. by rewrite app_nil_r.
Qed.

(** ** Refreshing the cookies: [update_cookies] *)

Lemma pre_headers_signs_cookie url st :
  Forall (fun e => match e with
                   | EvSign _ c => (heap st !!! default_headers st) !! "cookie" = Some c
                   | _ => False
                   end)
    (events_of (_pre_headers url st)).
Proof.
  destruct (cookie_dict st !! "d_c0") as [[|a v]|] eqn:Hv.
  1,3: unfold _pre_headers; rewrite Hv; constructor.
  assert (d_c0_set st) as Hd by (by eexists; split).
  destruct ((heap st !!! default_headers st) !! "cookie") as [cookie|] eqn:Hc.
  2:{ unfold _pre_headers, bind, dict_getitem. rewrite Hv, Hc. constructor. }
  destruct (sign url cookie) as [e|d] eqn:Hs.
  { rewrite (pre_headers_sign_fails _ _ _ _ Hd Hc Hs). by repeat constructor. }
  destruct (d !! "x-zst-81") as [zst|] eqn:Hzst.
  2:{ unfold _pre_headers, bind, dict_getitem, call_sign, dict_copy, sign_getitem.
      rewrite Hv, Hc, Hs, Hzst. simpl. by repeat constructor. }
  destruct (d !! "x-zse-96") as [zse|] eqn:Hzse.
  2:{ unfold _pre_headers, bind, dict_getitem, call_sign, dict_copy, sign_getitem,
        dict_setitem.
      rewrite Hv, Hc, Hs, Hzst, Hzse. simpl. by repeat constructor. }
  rewrite (pre_headers_ok _ _ _ d zst zse Hd Hc Hs Hzst Hzse). by repeat constructor.
Qed.

(** The cookie string that a signed GET uses, for signing and in the
    headers it sends, is the one in the default headers. *)
Lemma get_uses_header_cookie uri params st :
  Forall (fun e => match e with
                   | EvSign _ c => (heap st !!! default_headers st) !! "cookie" = Some c
                   | EvHttp _ _ h _ =>
                       h !! "cookie" = (heap st !!! default_headers st) !! "cookie"
                   | _ => True
                   end)
    (events_of (get uri params st)).
Proof.
  pose proof (pre_headers_signs_cookie (final_uri_of uri params) st) as Hp.
  rewrite get_eq.
  destruct (pre_headers_cases (final_uri_of uri params) st)
    as [(e & st' & t & Hrun & _) | (cookie & zst & zse & Hlt & Hrun)];
    rewrite Hrun in Hp; unfold events_of in *; simpl in Hp.
  - rewrite (bind_Raise _ _ _ _ _ _ Hrun). simpl.
    eapply Forall_impl; [exact Hp|]. by intros [].
  - rewrite (bind_Return _ _ _ _ _ _ Hrun).
    pose proof (retrying_frame 2 "GET" (ZHIHU_URL +:+ final_uri_of uri params)
                  (length (heap st)) false (with_headers (signed st zst zse) st)) as Hf.
    change (retrying 2 1 _ _) with
      (request "GET" (ZHIHU_URL +:+ final_uri_of uri params) (length (heap st)) false
         (with_headers (signed st zst zse) st)) in Hf.
    destruct (request _ _ _ _ _) as [[r st2] t2].
    destruct Hf as (_ & _ & _ & _ & Hall & _).
    unfold with_headers, set_heap in Hall. cbn [heap] in Hall.
    rewrite list_lookup_total_middle in Hall by done.
    simpl. apply Forall_cons. split.
    + by apply Forall_cons in Hp as [? _].
    + eapply Forall_impl; [exact Hall|]. intros e [[res ->] | ->]; [|done].
      unfold signed. by rewrite !lookup_insert_ne.
Qed.

(** X5.  [update_cookies] writes the new cookie string into the shared
    default headers in place and binds the new cookie dict; it touches no
    other header and no other dict (the header copies of earlier requests
    keep the cookie they were sent with).  Every signed GET made
    afterwards signs with the new cookie string and sends it as its
    [cookie] header. *)
Theorem update_cookies_reaches_next_request cookie_str new_cookie_dict uri params st :
  default_headers st < length (heap st) ->
  exists st1,
    update_cookies cookie_str new_cookie_dict st = (Return tt, st1, []) /\
    cookie_dict st1 = new_cookie_dict /\
    default_headers st1 = default_headers st /\
    heap st1 !!! default_headers st
    = <["cookie" := cookie_str]> (heap st !!! default_headers st) /\
    (forall l, l <> default_headers st -> heap st1 !!! l = heap st !!! l) /\
    Forall (fun e => match e with
                     | EvSign _ c => c = cookie_str
                     | EvHttp _ _ h _ => h !! "cookie" = Some cookie_str
                     | _ => True
                     end)
      (events_of (get uri params st1)).
Proof.
  intros Hlt.
  exists (set_cookie_dict new_cookie_dict
            (set_heap (<[default_headers st :=
                           <["cookie" := cookie_str]> (heap st !!! default_headers st)]>
                         (heap st)) st)).
  assert ((<[default_headers st :=
               <["cookie" := cookie_str]> (heap st !!! default_headers st)]> (heap st)
             !!! default_headers st) !! "cookie" = Some cookie_str) as Hc.
  { rewrite list_lookup_total_insert_eq by done. by rewrite lookup_insert_eq. }
  split_and!; try done.
  - simpl. by rewrite list_lookup_total_insert_eq.
  - intros l Hl. simpl. by rewrite list_lookup_total_insert_ne.
  - eapply Forall_impl; [apply get_uses_header_cookie|].
    intros [] He; try done; simpl in He; rewrite Hc in He; congruence.
Qed.

(** ** The root walk in general *)

(** X6.  In every run of the root walk, whatever the network, the sink
    and the child walks do, the URLs it signs, one per page fetch, are
    those of the root-comment endpoint of the content with the offsets
    threaded: the first fetch asks for offset [""], and each later one for
    the offset extracted from the payload that the fetch before it
    returned.  A fetch is started for every payload received, and at most
    one more. *)
Theorem root_walk_threads_offsets_always fuel content ci cb st :
  let '(_, _, t) := get_note_all_comments fuel content ci cb st in
  signs_of t `prefix_of`
    map (root_uri_with content) ("" :: map offset_of (payloads_of t)) /\
  length (payloads_of t) <= length (signs_of t).
Proof. apply root_loop_threads. Qed.

Lemma asked_length offset pages : length (asked offset pages) = length pages.
Proof.
  revert offset. induction pages as [|p ps IH]; intros offset; simpl; [done|].
  by rewrite IH.
Qed.

Lemma asked_requests content pages :
  get_requests content (asked "" pages)
  ++ [("GET", root_url content (next_offset "" pages))]
  = get_requests content (offsets_for pages).
Proof.
  unfold offsets_for. rewrite <- asked_next. unfold get_requests. by rewrite map_app.
Qed.

Lemma root_turn_got fuel content ci cb result is_end offset st p :
  py_truthy is_end = false ->
  can_sign st ->
  serves (net (sent st)) p ->
  well_formed_page p = true ->
  exists st1 tg,
    can_sign st1 /\ sent st1 = S (sent st) /\
    requests_of tg = [("GET", root_url content offset)] /\
    root_loop (S fuel) content ci cb result is_end offset st
    = (let '(r, st', t) := root_page fuel content ci cb result p st1 in
       (r, st', tg ++ t)).
Proof.
  intros He Hcs Hserve Hw.
  destruct (get_served (root_comments_uri (content_id content) (content_type content))
              (Some (page_params offset 10 "sort")) st _ p Hcs eq_refl
              (serves_outcome _ _ Hserve Hw)) as (st1 & tg & Hget & Hcs1 & Hsent & Hreq).
  exists st1, tg. split_and!; [done | done | done |].
  rewrite root_loop_turn by done. unfold get_root_comments.
  by rewrite (bind_Return _ _ _ _ _ _ Hget).
Qed.

(** X7.  A page from which no comment is extracted ends the root walk,
    whatever its [is_end] says: when the walk has been served the valid
    pages [pages] and then a well-formed page without comments, it
    returns the comments of [pages]; the fetch of the empty page is its
    last request. *)
Theorem empty_page_ends_the_walk content ci cb pages empty fuel st :
  can_sign st ->
  Forall (valid_page content) pages ->
  well_formed_page empty = true ->
  comments_of content empty = [] ->
  served_from st (pages ++ [empty]) ->
  undisturbed content cb pages ->
  length pages < fuel ->
  exists st' t,
    get_note_all_comments fuel content ci cb st
    = (Return (concat (map (comments_of content) pages)), st', t) /\
    requests_of t = get_requests content (offsets_for pages) /\
    sent st' = sent st + length pages + 1.
Proof.
  intros Hcs Hv Hw Hempty Hsrv Hun Hfuel.
  assert (served_from st pages) as Hsrv1.
  { intros i p Hp. apply Hsrv. by apply lookup_app_l_Some. }
  destruct (Nat.le_exists_sub (S (length pages)) fuel Hfuel) as (k & -> & _).
  replace (k + S (length pages)) with (length pages + S k) by lia.
  unfold get_note_all_comments.
  destruct (root_loop_served_pages content ci cb pages (S k) [] (JBool false) "" st
              eq_refl Hcs Hv Hsrv1 Hun) as (st1 & tp & Hcs1 & Hsent1 & Hrp & ->).
  assert (serves (net (sent st1)) empty) as Hserve.
  { rewrite Hsent1. apply Hsrv. by apply list_lookup_middle. }
  pose proof (next_is_end_falsy content (JBool false) pages eq_refl Hv) as He.
  destruct (root_turn_got k content ci cb (concat (map (comments_of content) pages))
              (next_is_end (JBool false) pages) (next_offset "" pages) st1 empty
              He Hcs1 Hserve Hw) as (st2 & tg & _ & Hsent2 & Hrg & Hturn).
  rewrite app_nil_l, Hturn. unfold root_page.
  rewrite (well_formed_truthy _ Hw), (read_page_well_formed _ _ Hw), Hempty.
  exists st2, (tp ++ tg ++ []). split_and!; [done | | lia].
  rewrite !requests_of_app, Hrp, Hrg, app_nil_r. apply asked_requests.
Qed.


(** X9.  An exception of the sink ends the root walk at once.  When the
    walk has been served the valid pages [pages] and then a well-formed
    page with comments on which the sink raises [e], it raises [e]; the
    call of the sink is the last thing that happened (no child walk, no
    delay, no further fetch), and it was made with the accumulator holding
    the comments of [pages]. *)
Theorem sink_failure_aborts_the_walk content ci f pages p e fuel st :
  can_sign st ->
  Forall (valid_page content) pages ->
  well_formed_page p = true ->
  comments_of content p <> [] ->
  served_from st (pages ++ [p]) ->
  undisturbed content (Some f) pages ->
  f (comments_of content p) = Some e ->
  length pages < fuel ->
  exists st' t,
    get_note_all_comments fuel content ci (Some f) st = (Raise e, st', t) /\
    last t = Some (EvCallback (comments_of content p)
                     (concat (map (comments_of content) pages))) /\
    requests_of t = get_requests content (offsets_for pages) /\
    sent st' = sent st + length pages + 1.
Proof.
  intros Hcs Hv Hw Hne Hsrv Hun Hf Hfuel.
  assert (served_from st pages) as Hsrv1.
  { intros i q Hq. apply Hsrv. by apply lookup_app_l_Some. }
  destruct (Nat.le_exists_sub (S (length pages)) fuel Hfuel) as (k & -> & _).
  replace (k + S (length pages)) with (length pages + S k) by lia.
  unfold get_note_all_comments.
  destruct (root_loop_served_pages content ci (Some f) pages (S k) [] (JBool false) "" st
              eq_refl Hcs Hv Hsrv1 Hun) as (st1 & tp & Hcs1 & Hsent1 & Hrp & ->).
  assert (serves (net (sent st1)) p) as Hserve.
  { rewrite Hsent1. apply Hsrv. by apply list_lookup_middle. }
  pose proof (next_is_end_falsy content (JBool false) pages eq_refl Hv) as He.
  destruct (root_turn_got k content ci (Some f)
              (concat (map (comments_of content) pages))
              (next_is_end (JBool false) pages) (next_offset "" pages) st1 p
              He Hcs1 Hserve Hw) as (st2 & tg & _ & Hsent2 & Hrg & Hturn).
  rewrite app_nil_l, Hturn. unfold root_page.
  rewrite (well_formed_truthy _ Hw), (read_page_well_formed _ _ Hw).
  destruct (comments_of content p) as [|c cs] eqn:Hc; [done|].
  simpl. rewrite Hf.
  eexists _, _. split_and!; [reflexivity | | | lia].
  - by rewrite !app_assoc, last_snoc.
  - rewrite !requests_of_app, Hrp, Hrg. simpl. exact (asked_requests content pages).
Qed.

(** X10.  Nothing bounds the root walk but the server.  When every
    exchange is answered by a valid page that is not marked [is_end], the
    walk never returns: for every amount of fuel it is still running when
    the fuel is used up, having made one request per unit of fuel. *)
Theorem walk_runs_while_server_goes_on content ci cb (page_at : nat -> json) fuel st :
  can_sign st ->
  (forall i, valid_page content (page_at i)) ->
  (forall i, serves (net (sent st + i)) (page_at i)) ->
  (forall i, sink_accepts cb (comments_of content (page_at i))) ->
  ENABLE_GET_SUB_COMMENTS = false
  \/ (forall i, no_replies (comments_of content (page_at i))) ->
  exists st' t,
    get_note_all_comments fuel content ci cb st = (OutOfFuel, st', t) /\
    length (requests_of t) = fuel /\
    sent st' = sent st + fuel.
Proof.
  intros Hcs Hv Hsrv Hsink Hsub.
  set (pages := map page_at (seq 0 fuel)).
  assert (length pages = fuel) as Hlen by (unfold pages; by rewrite length_map, length_seq).
  assert (Forall (valid_page content) pages) as Hvp.
  { unfold pages. apply Forall_forall. intros p Hp.
    apply list_elem_of_fmap in Hp as (i & -> & _). apply Hv. }
  assert (served_from st pages) as Hsp.
  { intros i p Hp. unfold pages in Hp. rewrite list_lookup_fmap in Hp.
    destruct (seq 0 fuel !! i) as [j|] eqn:Hj; [|done].
    apply lookup_seq in Hj as [-> _]. injection Hp as <-. apply Hsrv. }
  assert (undisturbed content cb pages) as Hun.
  { split.
    - unfold pages. apply Forall_forall. intros p Hp.
      apply list_elem_of_fmap in Hp as (i & -> & _). apply Hsink.
    - destruct Hsub as [? | Hsub]; [by left | right].
      unfold pages. apply Forall_forall. intros p Hp.
      apply list_elem_of_fmap in Hp as (i & -> & _). apply Hsub. }
  clearbody pages. subst fuel.
  unfold get_note_all_comments.
  destruct (root_loop_served_pages content ci cb pages 0 [] (JBool false) "" st
              eq_refl Hcs Hvp Hsp Hun) as (st1 & tp & Hcs1 & Hsent1 & Hrp & Hrun).
  rewrite Nat.add_0_r in Hrun. rewrite Hrun.
  rewrite root_loop_O by (by eapply next_is_end_falsy).
  exists st1, (tp ++ []). split_and!; [done | | lia].
  rewrite app_nil_r, Hrp. unfold get_requests.
  by rewrite length_map, asked_length.
Qed.

(** ** The child walk that is served its pages *)

Lemma child_turn_served fuel content parent ci cb acc is_end offset st p :
  py_truthy is_end = false ->
  can_sign st ->
  serves (net (sent st)) p ->
  well_formed_page p = true ->
  sink_accepts cb (comments_of content p) ->
  exists st1 tg tm,
    can_sign st1 /\ sent st1 = S (sent st) /\
    requests_of tg = [("GET", child_url parent offset)] /\
    requests_of tm = [] /\
    child_loop (S fuel) content parent ci cb acc is_end offset st
    = match comments_of content p with
      | [] => (Return acc, st1, tg)
      | _ :: _ =>
          let '(r, st', tr) :=
            child_loop fuel content parent ci cb (acc ++ comments_of content p)
              (is_end_of p) (offset_of p) st1 in
          (r, st', tg ++ tm ++ tr)
      end.
Proof.
  intros He Hcs Hserve Hw Hsink.
  destruct (get_served (child_comments_uri (comment_id parent))
              (Some (page_params offset 10 "sort")) st _ p Hcs eq_refl
              (serves_outcome _ _ Hserve Hw)) as (st1 & tg & Hget & Hcs1 & Hsent & Hreq).
  rewrite child_loop_turn by done. unfold get_child_comments.
  rewrite (bind_Return _ _ _ _ _ _ Hget). unfold child_page.
  rewrite (well_formed_truthy _ Hw), (read_page_well_formed _ _ Hw).
  destruct (comments_of content p) as [|c cs] eqn:Hc.
  { exists st1, tg, []. rewrite app_nil_r. by split_and!. }
  destruct (call_callback_cases cb (c :: cs) acc st1)
    as [[-> Hnone] | (f & Hf & [[Hok ->] | (e & Hraise & _)])].
  - exists st1, tg, [EvSleep ci]. split_and!; try done.
    by destruct (child_loop fuel content parent ci cb (acc ++ c :: cs) (is_end_of p)
                   (offset_of p) st1) as [[r st'] tr].
  - exists st1, tg, [EvCallback (c :: cs) acc; EvSleep ci]. split_and!; try done.
    by destruct (child_loop fuel content parent ci cb (acc ++ c :: cs) (is_end_of p)
                   (offset_of p) st1) as [[r st'] tr].
  - rewrite (Hsink f Hf) in Hraise. discriminate.
Qed.

Lemma child_loop_served_pages content parent ci cb pages :
  forall fuel acc is_end offset st,
    py_truthy is_end = false ->
    can_sign st ->
    Forall (valid_page content) pages ->
    served_from st pages ->
    Forall (fun p => sink_accepts cb (comments_of content p)) pages ->
    exists st1 tp,
      can_sign st1 /\ sent st1 = sent st + length pages /\
      requests_of tp
      = map (fun offset => ("GET", child_url parent offset)) (asked offset pages) /\
      child_loop (length pages + fuel) content parent ci cb acc is_end offset st
      = (let '(r, st', tr) :=
           child_loop fuel content parent ci cb
             (acc ++ concat (map (comments_of content) pages))
             (next_is_end is_end pages) (next_offset offset pages) st1 in
         (r, st', tp ++ tr)).
Proof.
  induction pages as [|p ps IH]; intros fuel acc is_end offset st He Hcs Hv Hsrv Hsink.
  - exists st, []. simpl. rewrite app_nil_r. split_and!; [done | lia | done |].
    by destruct (child_loop fuel content parent ci cb acc is_end offset st)
      as [[r st'] tr].
  - apply Forall_cons in Hv as [(Hw & Hpe & Hpc) Hv].
    apply Forall_cons in Hsink as [Hs1 Hs2].
    assert (serves (net (sent st)) p) as Hserve.
    { rewrite <- (Nat.add_0_r (sent st)). by apply Hsrv. }
    destruct (child_turn_served (length ps + fuel) content parent ci cb acc is_end offset
                st p He Hcs Hserve Hw Hs1)
      as (st1 & tg & tm & Hcs1 & Hsent & Hrg & Hrm & Hturn).
    destruct (IH fuel (acc ++ comments_of content p) (is_end_of p) (offset_of p) st1
                Hpe Hcs1 Hv (served_from_tail _ _ _ _ Hsent Hsrv) Hs2)
      as (st2 & tp & Hcs2 & Hsent2 & Hrp & Hrest).
    exists st2, (tg ++ tm ++ tp). split_and!; [done | simpl; lia | |].
    + rewrite !requests_of_app, Hrg, Hrm, Hrp. reflexivity.
    + change (length (p :: ps) + fuel) with (S (length ps + fuel)).
      rewrite Hturn. destruct (comments_of content p) as [|c cs] eqn:Hc; [done|].
      rewrite Hrest.
      change (next_is_end is_end (p :: ps)) with (next_is_end (is_end_of p) ps).
      change (next_offset offset (p :: ps)) with (next_offset (offset_of p) ps).
      change (concat (map (comments_of content) (p :: ps)))
        with (comments_of content p ++ concat (map (comments_of content) ps)).
      rewrite Hc, (app_assoc acc).
      destruct (child_loop fuel content parent ci cb _ _ _ st2) as [[r st'] tr].
      by rewrite <- !app_assoc.
Qed.

(** The walk under one parent, served its pages up to the last one. *)
Lemma child_loop_served content parent ci cb pages final fuel acc st :
  can_sign st ->
  Forall (valid_page content) pages ->
  final_page final ->
  served_from st (pages ++ [final]) ->
  Forall (fun p => sink_accepts cb (comments_of content p)) (pages ++ [final]) ->
  length pages < fuel ->
  exists st' t,
    child_loop fuel content parent ci cb acc (JBool false) "" st
    = (Return (acc ++ concat (map (comments_of content) (pages ++ [final]))), st', t) /\
    requests_of t
    = map (fun offset => ("GET", child_url parent offset)) (offsets_for pages) /\
    can_sign st' /\
    sent st' = sent st + length (pages ++ [final]).
Proof.
  intros Hcs Hv [Hfw Hfe] Hsrv Hsink Hfuel.
  assert (served_from st pages) as Hsrv1.
  { intros i p Hp. apply Hsrv. by apply lookup_app_l_Some. }
  apply Forall_app in Hsink as [Hsink1 Hsink2].
  apply Forall_cons in Hsink2 as [Hsf _].
  destruct (Nat.le_exists_sub (S (length pages)) fuel Hfuel) as (k & -> & _).
  replace (k + S (length pages)) with (length pages + S k) by lia.
  destruct (child_loop_served_pages content parent ci cb pages (S k) acc (JBool false) ""
              st eq_refl Hcs Hv Hsrv1 Hsink1) as (st1 & tp & Hcs1 & Hsent1 & Hrp & ->).
  assert (serves (net (sent st1)) final) as Hserve.
  { rewrite Hsent1. apply Hsrv. by apply list_lookup_middle. }
  pose proof (next_is_end_falsy content (JBool false) pages eq_refl Hv) as He.
  destruct (child_turn_served k content parent ci cb
              (acc ++ concat (map (comments_of content) pages))
              (next_is_end (JBool false) pages) (next_offset "" pages) st1 final
              He Hcs1 Hserve Hfw Hsf)
    as (st2 & tg & tm & Hcs2 & Hsent2 & Hrg & Hrm & Hturn).
  rewrite Hturn.
  assert (map (fun offset => ("GET", child_url parent offset)) (asked "" pages)
          ++ [("GET", child_url parent (next_offset "" pages))]
          = map (fun offset => ("GET", child_url parent offset)) (offsets_for pages))
    as Hreqs.
  { unfold offsets_for. rewrite <- asked_next. by rewrite map_app. }
  rewrite map_app, concat_app, length_app. simpl. rewrite app_nil_r.
  destruct (comments_of content final) as [|c cs] eqn:Hc.
  - exists st2, (tp ++ tg). rewrite !app_nil_r. split_and!; [done | | done | lia].
    by rewrite requests_of_app, Hrp, Hrg.
  - rewrite child_loop_end by done.
    exists st2, (tp ++ tg ++ tm ++ []). rewrite app_assoc.
    split_and!; [done | | done | lia].
    by rewrite !requests_of_app, Hrp, Hrg, Hrm, !app_nil_r.
Qed.

Lemma served_from_app_l st a b : served_from st (a ++ b) -> served_from st a.
Proof. intros H i p Hp. apply H. by apply lookup_app_l_Some. Qed.

Lemma served_from_app_r st st1 a b :
  sent st1 = sent st + length a -> served_from st (a ++ b) -> served_from st1 b.
Proof.
  intros Hs H i p Hp. rewrite Hs, <- Nat.add_assoc. apply H.
  rewrite lookup_app_r by lia. by replace (length a + i - length a) with i by lia.
Qed.

Lemma child_for_served content ci cb fuel plan :
  forall acc st,
    can_sign st ->
    Forall (entry_ok content cb fuel) plan ->
    served_from st (plan_script plan) ->
    exists st' t,
      child_for fuel content (map (fun entry => fst (fst entry)) plan) ci cb acc st
      = (Return (acc ++ concat (map (comments_of content) (plan_script plan))), st', t) /\
      requests_of t = plan_requests plan /\
      can_sign st' /\
      sent st' = sent st + length (plan_script plan).
Proof.
  induction plan as [|[[parent pages] final] rest IH]; intros acc st Hcs Hok Hsrv.
  - exists st, []. simpl. rewrite app_nil_r. split_and!; [done | done | done | lia].
  - apply Forall_cons in Hok as [Hentry Hok].
    unfold plan_script, plan_requests in *. simpl in *.
    unfold has_replies in *.
    destruct (sub_comment_count parent =? 0)%Z eqn:Hz; simpl in *.
    + by apply IH.
    + destruct (Hentry eq_refl) as (Hv & Hfin & Hsink & Hfuel).
      destruct (child_loop_served content parent ci cb pages final fuel acc st
                  Hcs Hv Hfin (served_from_app_l _ _ _ Hsrv) Hsink Hfuel)
        as (st1 & t1 & Hrun & Hr1 & Hcs1 & Hsent1).
      destruct (IH (acc ++ concat (map (comments_of content) (pages ++ [final]))) st1
                  Hcs1 Hok (served_from_app_r _ _ _ _ Hsent1 Hsrv))
        as (st2 & t2 & Hrest & Hr2 & Hcs2 & Hsent2).
      rewrite (bind_Return _ _ _ _ _ _ Hrun), Hrest.
      exists st2, (t1 ++ t2). split_and!; [| | done |].
      * f_equal. f_equal.
        by rewrite (map_app _ (pages ++ [final])), concat_app, app_assoc.
      * by rewrite requests_of_app, Hr1, Hr2.
      * rewrite Hsent2, Hsent1, (length_app (pages ++ [final])). lia.
Qed.

(** X11.  With child fetching on, the child walk gathers the replies of
    all the given parents, in order.  Let each parent with replies have
    its valid pages and its last page ([is_end] true), let the network
    answer with these pages, parent after parent, and let the sink accept
    them.  Then the walk returns the comments of all these pages in that
    order.  Parents whose count is zero cost no exchange; for every other
    parent the child-comment URL is asked with offset [""] first and then
    with the offset of the page before. *)
Theorem child_walk_collects_all_replies content ci cb fuel plan st :
  ENABLE_GET_SUB_COMMENTS = true ->
  can_sign st ->
  Forall (entry_ok content cb fuel) plan ->
  served_from st (plan_script plan) ->
  exists st' t,
    get_comments_all_sub_comments fuel content
      (map (fun entry => fst (fst entry)) plan) ci cb st
    = (Return (concat (map (comments_of content) (plan_script plan))), st', t) /\
    requests_of t = plan_requests plan /\
    sent st' = sent st + length (plan_script plan).
Proof.
  intros Hen Hcs Hok Hsrv. unfold get_comments_all_sub_comments. rewrite Hen. simpl.
  destruct (child_for_served content ci cb fuel plan [] st Hcs Hok Hsrv)
    as (st' & t & Hrun & Hreq & _ & Hsent).
  by exists st', t.
Qed.

(** ** The walks leave the session alone *)












(** ** The query string: nothing is lost and nothing gets in *)




Lemma count_char_append c (a b : string) :
  count_char c (a +:+ b) = count_char c a + count_char c b.
Proof.
  induction a as [|x a IH]; [done|].
  change ((if Ascii.eqb x c then 1 else 0) + count_char c (a +:+ b)
          = (if Ascii.eqb x c then 1 else 0) + count_char c a + count_char c b).
  rewrite IH. lia.
Qed.

Lemma quote_plus_byte_clean c :
  count_char "&" (quote_plus_byte c) = 0 /\ count_char "=" (quote_plus_byte c) = 0 /\
  count_char "?" (quote_plus_byte c) = 0 /\ count_char "#" (quote_plus_byte c) = 0 /\
  count_char " " (quote_plus_byte c) = 0 /\ count_char "/" (quote_plus_byte c) = 0.
Proof.
  destruct c as [[] [] [] [] [] [] [] []]; vm_compute; by split_and!.
Qed.



Lemma quote_plus_clean s :
  count_char "&" (quote_plus s) = 0 /\ count_char "=" (quote_plus s) = 0 /\
  count_char "?" (quote_plus s) = 0 /\ count_char "#" (quote_plus s) = 0 /\
  count_char " " (quote_plus s) = 0 /\ count_char "/" (quote_plus s) = 0.
Proof.
  induction s as [|c s (I1 & I2 & I3 & I4 & I5 & I6)]; [done|].
  change (quote_plus (String c s)) with (quote_plus_byte c +:+ quote_plus s).
  rewrite !count_char_append.
  destruct (quote_plus_byte_clean c) as (B1 & B2 & B3 & B4 & B5 & B6).
  split_and!; lia.
Qed.

Lemma join_amp_cons x l :
  join_amp (x :: l) = match l with [] => x | _ :: _ => x +:+ "&" +:+ join_amp l end.
Proof. by destruct l. Qed.

Lemma count_join_amp c l :
  Forall (fun x => count_char c x = 0) l ->
  count_char c (join_amp l)
  = if Ascii.eqb "&" c then length l - 1 else 0.
Proof.
  induction 1 as [|x l Hx Hl IH]; [by destruct (Ascii.eqb "&" c)|].
  rewrite join_amp_cons. destruct l as [|y l].
  - rewrite Hx. by destruct (Ascii.eqb "&" c).
  - rewrite !count_char_append, IH, Hx.
    change (count_char c "&") with ((if Ascii.eqb "&" c then 1 else 0) + 0).
    destruct (Ascii.eqb "&" c); simpl; lia.
Qed.

Lemma query_string_fields params :
  count_char "&" (urlencode params) = length params - 1 /\
  count_char "=" (urlencode params) = length params /\
  count_char "?" (urlencode params) = 0 /\
  count_char "#" (urlencode params) = 0 /\
  count_char "/" (urlencode params) = 0 /\
  count_char " " (urlencode params) = 0.
Proof.
  unfold urlencode.
  assert (forall c, c <> "&"%char -> c <> "="%char ->
            count_char c "&" = 0 -> count_char c "=" = 0 ->
            (forall s, count_char c (quote_plus s) = 0) ->
            count_char c
              (join_amp (map (fun kv => quote_plus (fst kv) +:+ "="
                                        +:+ quote_plus (py_str (snd kv))) params)) = 0)
    as Hother.
  { intros c Hc1 Hc2 Ha He Hq. rewrite count_join_amp.
    - destruct (Ascii.eqb_spec "&" c); [congruence | done].
    - apply Forall_forall. intros x Hx. apply list_elem_of_fmap in Hx as (kv & -> & _).
      rewrite !count_char_append, !Hq, He. done. }
  split_and!.
  - rewrite count_join_amp.
    + simpl. by rewrite length_map.
    + apply Forall_forall. intros x Hx. apply list_elem_of_fmap in Hx as (kv & -> & _).
      rewrite !count_char_append.
      destruct (quote_plus_clean (fst kv)) as (-> & _).
      by destruct (quote_plus_clean (py_str (snd kv))) as (-> & _).
  - clear Hother. induction params as [|kv params IH]; [done|].
    cbn [map]. rewrite join_amp_cons.
    assert (count_char "=" (quote_plus (fst kv) +:+ "=" +:+ quote_plus (py_str (snd kv)))
            = 1) as Hone.
    { rewrite !count_char_append.
      destruct (quote_plus_clean (fst kv)) as (_ & -> & _).
      by destruct (quote_plus_clean (py_str (snd kv))) as (_ & -> & _). }
    destruct params as [|kv' params]; [exact Hone|].
    cbn [map] in IH |- *. cbv iota.
    rewrite count_char_append, Hone, count_char_append, IH. reflexivity.
  - apply Hother; try done. intros s. by destruct (quote_plus_clean s) as (_ & _ & ? & _).
  - apply Hother; try done.
    intros s. by destruct (quote_plus_clean s) as (_ & _ & _ & ? & _).
  - apply Hother; try done.
    intros s. by destruct (quote_plus_clean s) as (_ & _ & _ & _ & _ & ?).
  - apply Hother; try done.
    intros s. by destruct (quote_plus_clean s) as (_ & _ & _ & _ & ? & _).
Qed.




(** ** The search *)

(** X15.  A search is one signed GET of [/api/v4/search_v3] with the
    thirteen parameters in the query, and what it returns is what the
    extractor makes of the payload.  In particular a 404, which the
    transport reads as the empty dict, is not an error for the search
    either: the extractor is handed the empty dict. *)
Theorem search_is_one_signed_get keyword page page_size sort note_type search_time st v :
  can_sign st ->
  attempt_outcome false (net (sent st)) = Return v ->
  exists st1 t,
    get_note_by_keyword keyword page page_size sort note_type search_time st
    = (Return (extract_contents v), st1, t) /\
    requests_of t
    = [("GET", ZHIHU_URL +:+ "/api/v4/search_v3?"
               +:+ urlencode (search_params keyword page page_size sort note_type
                                search_time))] /\
    count_char "&" (urlencode (search_params keyword page page_size sort note_type
                                 search_time)) = 12 /\
    sent st1 = S (sent st) /\
    ((exists r, net (sent st) = HttpResponse r /\ status_code r = 404%Z) ->
     v = JDict []).
Proof.
  intros Hcs Ho.
  destruct (get_served "/api/v4/search_v3"
              (Some (search_params keyword page page_size sort note_type search_time))
              st _ v Hcs eq_refl Ho) as (st1 & t & Hget & _ & Hsent & Hreq).
  exists st1, t. split_and!.
  - unfold get_note_by_keyword. rewrite (bind_Return _ _ _ _ _ _ Hget).
    simpl. by rewrite app_nil_r.
  - rewrite Hreq. reflexivity.
  - by destruct (query_string_fields
                   (search_params keyword page page_size sort note_type search_time))
      as [-> _].
  - done.
  - intros (r & Hn & Hs). rewrite Hn in Ho. simpl in Ho.
    rewrite (interpret_404 _ _ Hs) in Ho. by injection Ho as <-.
Qed.

(** ** How one attempt reads a response *)

(** X16.  What an attempt of [request] makes of a response, case by
    case.  A status other than 200, 403 and 404 is a [DataFetchError]
    with the body; so is a 200 whose body is not JSON.  A 200 whose JSON
    is a dict with a truthy [error] dict is a [DataFetchError] with that
    dict's [message] ([None] when there is none).  But a 200 whose JSON is
    not a dict, or whose truthy [error] is not a dict, is an
    [AttributeError], not a [DataFetchError].  With [return_response] set,
    a 200 is returned as its text, without a look at the JSON. *)
Theorem attempt_reads_response r :
  (status_code r <> 200%Z -> status_code r <> 403%Z -> status_code r <> 404%Z ->
   forall rr, interpret rr r = inl (DataFetchError (JStr (text r)))) /\
  (status_code r = 200%Z ->
   interpret true r = inr (JStr (text r)) /\
   (json_body r = None -> interpret false r = inl (DataFetchError (JStr (text r)))) /\
   (forall data, json_body r = Some data -> is_dict data = false ->
      interpret false r = inl AttributeError) /\
   (forall data, json_body r = Some data -> is_dict data = true ->
      py_truthy (field data "error") = false -> interpret false r = inr data) /\
   (forall data, json_body r = Some data -> is_dict data = true ->
      py_truthy (field data "error") = true ->
      interpret false r
      = inl (if is_dict (field data "error")
             then DataFetchError (field (field data "error") "message")
             else AttributeError))).
Proof.
  split.
  - intros H200 H403 H404 rr. unfold interpret.
    apply Z.eqb_neq in H200, H403, H404. by rewrite H200, H403, H404.
  - intros H200. unfold interpret. rewrite H200. simpl. split_and!.
    + done.
    + by intros ->.
    + intros data -> Hd. by destruct data.
    + intros data -> Hd Hf. destruct data; try done. unfold field in Hf. simpl in *.
      by rewrite Hf.
    + intros data -> Hd Hf. destruct data as [| | | | |d]; try done.
      unfold field in *. simpl in *. rewrite Hf.
      by destruct (match assoc "error" d with Some x => x | None => JNull end).
Qed.

(** ** The two walks together *)

Lemma entry_ok_mono content cb fuel fuel' entry :
  fuel <= fuel' -> entry_ok content cb fuel entry -> entry_ok content cb fuel' entry.
Proof.
  destruct entry as [[parent pages] final]. intros Hle H Hr.
  destruct (H Hr) as (? & ? & ? & ?). split_and!; try done. lia.
Qed.

Lemma root_turn_with_children fuel sub_fuel content ci cb result is_end offset st last
    p plan :
  ENABLE_GET_SUB_COMMENTS = true ->
  py_truthy is_end = false ->
  can_sign st ->
  round_ok content cb sub_fuel last (p, plan) ->
  sub_fuel <= fuel ->
  served_from st (round_script (p, plan)) ->
  exists st1 tm,
    can_sign st1 /\
    sent st1 = sent st + length (round_script (p, plan)) /\
    requests_of tm = [("GET", root_url content offset)] /\
    root_loop (S fuel) content ci cb result is_end offset st
    = (let '(r, st', tr) :=
         root_loop fuel content ci cb (result ++ comments_of content p)
           (is_end_of p) (offset_of p) st1 in
       (r, st', tm ++ tr)).
Proof.
  intros Hen He Hcs (Hw & _ & Hne & Hmap & Hsink & Hplan) Hfuel Hsrv.
  unfold round_script in Hsrv. simpl in Hsrv.
  assert (serves (net (sent st)) p) as Hserve.
  { rewrite <- (Nat.add_0_r (sent st)). by apply Hsrv. }
  destruct (root_turn_got fuel content ci cb result is_end offset st p He Hcs Hserve Hw)
    as (st1 & tg & Hcs1 & Hsent1 & Hrg & Hturn).
  assert (Forall (entry_ok content cb fuel) plan) as Hplan'.
  { eapply Forall_impl; [exact Hplan|]. intros entry. by apply entry_ok_mono. }
  destruct (child_for_served content ci cb fuel plan [] st1 Hcs1 Hplan'
              (served_from_tail _ _ _ _ Hsent1 Hsrv))
    as (st2 & ts & Hsub & _ & Hcs2 & Hsent2).
  rewrite Hmap in Hsub.
  assert (get_comments_all_sub_comments fuel content (comments_of content p) ci cb st1
          = (Return (concat (map (comments_of content) (plan_script plan))), st2, ts))
    as Hsub'.
  { unfold get_comments_all_sub_comments. by rewrite Hen. }
  rewrite Hturn. unfold root_page.
  rewrite (well_formed_truthy _ Hw), (read_page_well_formed _ _ Hw).
  destruct (comments_of content p) as [|c cs] eqn:Hc; [done|].
  destruct (call_callback_cases cb (c :: cs) result st1)
    as [[-> Hnone] | (f & Hf & [[Hok ->] | (e & Hraise & _)])].
  - rewrite Hsub'. exists st2, (tg ++ [EvSubWalk ts; EvSleep ci]).
    split_and!; [done | unfold round_script; simpl; lia | |].
    + by rewrite requests_of_app, Hrg.
    + destruct (root_loop fuel content ci cb (result ++ c :: cs) (is_end_of p)
                  (offset_of p) st2) as [[r st'] tr].
      by rewrite <- app_assoc.
  - rewrite Hsub'.
    exists st2, (tg ++ [EvCallback (c :: cs) result; EvSubWalk ts; EvSleep ci]).
    split_and!; [done | unfold round_script; simpl; lia | |].
    + by rewrite requests_of_app, Hrg.
    + destruct (root_loop fuel content ci cb (result ++ c :: cs) (is_end_of p)
                  (offset_of p) st2) as [[r st'] tr].
      by rewrite <- app_assoc.
  - rewrite (Hsink f Hf) in Hraise. discriminate.
Qed.

Lemma root_loop_with_children content ci cb sub_fuel rounds :
  forall fuel result is_end offset st,
    ENABLE_GET_SUB_COMMENTS = true ->
    py_truthy is_end = false ->
    can_sign st ->
    Forall (round_ok content cb sub_fuel false) rounds ->
    sub_fuel <= fuel ->
    served_from st (tree_script rounds) ->
    exists st1 tp,
      can_sign st1 /\ sent st1 = sent st + length (tree_script rounds) /\
      requests_of tp = get_requests content (asked offset (map fst rounds)) /\
      root_loop (length rounds + fuel) content ci cb result is_end offset st
      = (let '(r, st', tr) :=
           root_loop fuel content ci cb
             (result ++ concat (map (comments_of content) (map fst rounds)))
             (next_is_end is_end (map fst rounds))
             (next_offset offset (map fst rounds)) st1 in
         (r, st', tp ++ tr)).
Proof.
  induction rounds as [|[p plan] rest IH];
    intros fuel result is_end offset st Hen He Hcs Hok Hfuel Hsrv.
  - exists st, []. simpl. rewrite app_nil_r. split_and!; [done | lia | done |].
    by destruct (root_loop fuel content ci cb result is_end offset st) as [[r st'] tr].
  - apply Forall_cons in Hok as [Hround Hok].
    unfold tree_script in *. cbn [flat_map] in *.
    destruct (root_turn_with_children (length rest + fuel) sub_fuel content ci cb result
                is_end offset st false p plan Hen He Hcs Hround ltac:(lia)
                (served_from_app_l _ _ _ Hsrv))
      as (st1 & tm & Hcs1 & Hsent1 & Hrm & Hturn).
    destruct Hround as (_ & Hpe & _).
    destruct (IH fuel (result ++ comments_of content p) (is_end_of p) (offset_of p) st1
                Hen Hpe Hcs1 Hok Hfuel (served_from_app_r _ _ _ _ Hsent1 Hsrv))
      as (st2 & tp & Hcs2 & Hsent2 & Hrp & Hrest).
    exists st2, (tm ++ tp). split_and!; [done | rewrite length_app; lia | |].
    + rewrite requests_of_app, Hrm, Hrp. reflexivity.
    + change (length ((p, plan) :: rest) + fuel) with (S (length rest + fuel)).
      rewrite Hturn, Hrest. cbn [map fst].
      change (next_is_end is_end (p :: map fst rest))
        with (next_is_end (is_end_of p) (map fst rest)).
      change (next_offset offset (p :: map fst rest))
        with (next_offset (offset_of p) (map fst rest)).
      cbn [concat]. rewrite (app_assoc result).
      destruct (root_loop fuel content ci cb _ _ _ st2) as [[r st'] tr].
      by rewrite <- app_assoc.
Qed.

Lemma next_is_end_rounds content cb sub_fuel is_end rounds :
  py_truthy is_end = false ->
  Forall (round_ok content cb sub_fuel false) rounds ->
  py_truthy (next_is_end is_end (map fst rounds)) = false.
Proof.
  intros He Hok. revert is_end He.
  induction Hok as [|[p plan] rest (_ & Hp & _) _ IH]; intros is_end He; [done|].
  unfold next_is_end in *. simpl. by apply IH.
Qed.

(** X17.  The two walks together, with child fetching on.  Let the
    network answer, in this order, with each root page followed by the
    pages of replies of the comments of that root page, parent after
    parent; let every root page carry comments, only the last one being
    marked [is_end], and let the sink accept everything.  Then the root
    walk returns the comments of the root pages, in order, and nothing
    else; it has consumed exactly the answers listed, the child walks
    having taken theirs between two root pages; and its own requests are
    one per root page, with the offsets threaded. *)
Theorem whole_tree_is_walked content ci cb sub_fuel rounds last fuel st :
  ENABLE_GET_SUB_COMMENTS = true ->
  can_sign st ->
  Forall (round_ok content cb sub_fuel false) rounds ->
  round_ok content cb sub_fuel true last ->
  served_from st (tree_script (rounds ++ [last])) ->
  length rounds + sub_fuel < fuel ->
  exists st' t,
    get_note_all_comments fuel content ci cb st
    = (Return (concat (map (comments_of content) (map fst (rounds ++ [last])))), st', t) /\
    requests_of t = get_requests content (offsets_for (map fst rounds)) /\
    sent st' = sent st + length (tree_script (rounds ++ [last])).
Proof.
  intros Hen Hcs Hok Hlast Hsrv Hfuel.
  destruct (Nat.le_exists_sub (S (length rounds + sub_fuel)) fuel Hfuel) as (k & -> & _).
  replace (k + S (length rounds + sub_fuel)) with (length rounds + S (sub_fuel + k))
    by lia.
  unfold tree_script in Hsrv. rewrite flat_map_app in Hsrv. cbn [flat_map] in Hsrv.
  rewrite app_nil_r in Hsrv.
  unfold get_note_all_comments.
  destruct (root_loop_with_children content ci cb sub_fuel rounds (S (sub_fuel + k)) []
              (JBool false) "" st Hen eq_refl Hcs Hok ltac:(lia)
              (served_from_app_l _ _ _ Hsrv))
    as (st1 & tp & Hcs1 & Hsent1 & Hrp & ->).
  pose proof (next_is_end_rounds content cb sub_fuel (JBool false) rounds eq_refl Hok)
    as He.
  destruct last as [p plan].
  destruct (root_turn_with_children (sub_fuel + k) sub_fuel content ci cb
              (concat (map (comments_of content) (map fst rounds)))
              (next_is_end (JBool false) (map fst rounds))
              (next_offset "" (map fst rounds)) st1 true p plan Hen He Hcs1 Hlast
              ltac:(lia) (served_from_app_r _ _ _ _ Hsent1 Hsrv))
    as (st2 & tm & Hcs2 & Hsent2 & Hrm & Hturn).
  rewrite app_nil_l, Hturn.
  destruct Hlast as (_ & Hpe & _).
  rewrite root_loop_end by done.
  exists st2, (tp ++ tm ++ []). split_and!.
  - rewrite !map_app, concat_app. cbn [map fst concat]. by rewrite app_nil_r.
  - rewrite !requests_of_app, Hrp, Hrm, app_nil_r.
    rewrite <- (asked_requests content (map fst rounds)). done.
  - unfold tree_script. rewrite flat_map_app, length_app. cbn [flat_map].
    rewrite app_nil_r. unfold tree_script in Hsent1. lia.
Qed.

End Client.

(** ** The theorems at work on the mocked session *)

Module Checks.
Import Fixture.

Lemma st0_can_sign : can_sign mock_sign st0.
Proof.
  split.
  - exists "abc". split; [reflexivity | discriminate].
  - exists "d_c0=abc". split; [reflexivity|].
    intros url. eexists _, _, _. split_and!; reflexivity.
Defined.

(** The fixture of the spec: two pages, the second one marked [is_end]. *)
Lemma root_walk_two_pages :
  exists st' t,
    get_note_all_comments URL true mock_sign mock_extract_offset mock_extract_comments
      (script two_pages) 5 answer 1 None st0
    = (Return [c "c1"; c "c2"; c "c3"], st', t) /\
    requests_of t = [root_get ""; root_get "o1"] /\
    sent st' = 2.
Proof.
  apply (root_walk_follows_offsets URL true mock_sign mock_extract_offset
           mock_extract_comments (script two_pages) answer 1 None
           [page ["c1"; "c2"] "o1" false] (page ["c3"] "o2" true) 5 st0).
  - exact st0_can_sign.
  - apply Forall_cons. split; [|constructor].
    split_and!; [reflexivity | reflexivity | discriminate].
  - split; reflexivity.
  - intros [|[|i]] p; simpl; intros [= <-]; eexists; split_and!; reflexivity.
  - split.
    + repeat (apply Forall_cons; split; [intros f [=]|]). constructor.
    + right. vm_compute. repeat constructor.
  - simpl. lia.
Defined.

(** A session without [d_c0]: nothing is signed or sent. *)
Lemma missing_d_c0_on_mock :
  get URL mock_sign (script []) "/api/v4/me" (Some [("include", PStr "email")]) st_no_d_c0
  = (Raise (Exception "d_c0 not found in cookies"), st_no_d_c0, []).
Proof.
  apply (missing_d_c0_fails_fast URL true mock_sign mock_extract_offset
           mock_extract_comments (script [])).
  reflexivity.
Defined.

(** A failing signer: one signing call, and its error. *)
Lemma failing_signer_on_mock :
  get URL failing_sign (script []) "/api/v4/me" None st0
  = (Raise (ForeignError "sign failed"), st0, [EvSign "/api/v4/me" "d_c0=abc"]).
Proof.
  apply (signing_failure_surfaces_at_once URL failing_sign (script [])
           "/api/v4/me" None st0 "d_c0=abc" (ForeignError "sign failed")).
  - exists "abc". split; [reflexivity | discriminate].
  - reflexivity.
  - reflexivity.
Defined.

(** The signer fails and the signing is not tried again. *)
Lemma failing_signer_is_not_retried :
  ~ signing_failure_retried URL failing_sign (script []) "/api/v4/me" None st0.
Proof.
  intros H.
  destruct (H "d_c0=abc" (ForeignError "sign failed") eq_refl eq_refl)
    as (st' & t & Hrun & Hlen & _).
  assert (d_c0_set st0) as Hd by (exists "abc"; split; [reflexivity | discriminate]).
  pose proof (get_sign_fails URL failing_sign (script []) "/api/v4/me" None st0
                "d_c0=abc" (ForeignError "sign failed") Hd eq_refl eq_refl) as Hg.
  rewrite Hg in Hrun.
  injection Hrun as _ Ht. subst t. discriminate Hlen.
Qed.

(** Three 403 responses: three exchanges, two waits, and [RetryError]. *)
Lemma forbidden_three_times_on_mock :
  request (script three_403) "GET" "https://www.zhihu.com/api/v4/me" 0 false st0
  = (Raise (RetryError (ForbiddenError "still blocked")),
     incr_sent (incr_sent (incr_sent st0)),
     [EvHttp "GET" "https://www.zhihu.com/api/v4/me" base_headers (status 403 "blocked");
      EvRetryWait 1;
      EvHttp "GET" "https://www.zhihu.com/api/v4/me" base_headers
        (status 403 "blocked again");
      EvRetryWait 1;
      EvHttp "GET" "https://www.zhihu.com/api/v4/me" base_headers
        (status 403 "still blocked")]).
Proof.
  destruct (forbidden_raised_then_retried (script three_403)
              "GET" "https://www.zhihu.com/api/v4/me" 0 false st0
              {| status_code := 403; text := "blocked"; json_body := None |}
              eq_refl eq_refl) as (_ & _ & _ & H).
  apply (H {| status_code := 403; text := "blocked again"; json_body := None |}
           {| status_code := 403; text := "still blocked"; json_body := None |});
    reflexivity.
Defined.

(** A 403 followed by a good answer: the request is made again and the
    forbidden failure never reaches the caller. *)
Lemma forbidden_is_retried :
  ~ forbidden_not_retried (script [status 403 "blocked"; ok (page ["c1"] "o1" true)])
      "GET" "https://www.zhihu.com/api/v4/me" 0 false st0.
Proof.
  intros H.
  destruct (H {| status_code := 403; text := "blocked"; json_body := None |}
              eq_refl eq_refl) as (st' & Hrun).
  vm_compute in Hrun. discriminate Hrun.
Qed.

(** The two-page walk sleeps after its last page. *)
Lemma delay_after_the_last_page :
  ~ no_delay_after_last_fetch
      (events_of
         (get_note_all_comments URL true mock_sign mock_extract_offset
            mock_extract_comments (script two_pages) 5 answer 1 None st0)).
Proof.
  intros H.
  set (t := events_of
              (get_note_all_comments URL true mock_sign mock_extract_offset
                 mock_extract_comments (script two_pages) 5 answer 1 None st0)) in *.
  assert (t = take 7 t ++ EvSleep 1 :: []) as Ht by (vm_compute; reflexivity).
  destruct (H (take 7 t) 1%Q [] Ht).
Qed.

(** One page and then a 404: the walk returns the first page. *)
Lemma not_found_after_one_page :
  exists st' t,
    get_note_all_comments URL true mock_sign mock_extract_offset mock_extract_comments
      (script [ok (page ["c1"; "c2"] "o1" false); status 404 ""]) 5 answer 1 None st0
    = (Return [c "c1"; c "c2"], st', t) /\
    requests_of t = [root_get ""; root_get "o1"] /\
    sent st' = 2.
Proof.
  apply (not_found_ends_the_walk URL true mock_sign mock_extract_offset
           mock_extract_comments
           (script [ok (page ["c1"; "c2"] "o1" false); status 404 ""]) answer 1 None
           [page ["c1"; "c2"] "o1" false] 5 st0
           {| status_code := 404; text := ""; json_body := None |}).
  - exact st0_can_sign.
  - apply Forall_cons. split; [|constructor].
    split_and!; [reflexivity | reflexivity | discriminate].
  - intros [|i] p; simpl; intros [= <-]; eexists; split_and!; reflexivity.
  - split.
    + repeat (apply Forall_cons; split; [intros f [=]|]). constructor.
    + right. vm_compute. repeat constructor.
  - reflexivity.
  - reflexivity.
  - simpl. lia.
Defined.

(** With the flag off no parent is looked at, whatever its count. *)
Lemma flag_off_on_mock :
  get_comments_all_sub_comments URL false mock_sign mock_extract_offset
    mock_extract_comments (script two_pages) 5 answer with_replies 1 None st0
  = (Return [], st0, []).
Proof.
  destruct (child_endpoint_needs_flag_and_replies URL false mock_sign
              mock_extract_offset mock_extract_comments (script two_pages) 5 answer
              with_replies 1 None st0) as (_ & H & _).
  apply H. reflexivity.
Defined.

(** The two-page walk: a delay after each page, the last one included. *)
Lemma delays_on_two_pages :
  let '(r, _, t) :=
    get_note_all_comments URL true mock_sign mock_extract_offset mock_extract_comments
      (script two_pages) 5 answer 1 None st0 in
  skeleton t = [Fetch; Delay; Fetch; Delay] /\
  exists p, last (payloads_of t) = Some p /\ delivers mock_extract_comments answer p.
Proof.
  generalize (delay_follows_every_delivered_page URL true mock_sign mock_extract_offset
                mock_extract_comments (script two_pages) 5 answer 1 None st0).
  destruct (get_note_all_comments URL true mock_sign mock_extract_offset
              mock_extract_comments (script two_pages) 5 answer 1 None st0)
    as [[r st'] t] eqn:Hrun.
  intros [(_ & _ & Hl) _].
  vm_compute in Hrun. injection Hrun as <- <- <-.
  destruct (Hl _ eq_refl) as (p & m & Hp & Hm & Hiff).
  split; [reflexivity|]. exists p. split; [exact Hp|].
  apply Hiff. vm_compute in Hm. by injection Hm as <-.
Defined.

(** The default headers after a signed GET are the ones before it. *)
Lemma default_headers_kept_on_mock :
  let '(_, st', _) :=
    get URL mock_sign (script two_pages) "/api/v4/me" None st0 in
  heap st' !!! default_headers st' = base_headers.
Proof.
  generalize (get_leaves_default_headers URL mock_sign (script two_pages)
                "/api/v4/me" None st0).
  destruct (get URL mock_sign (script two_pages) "/api/v4/me" None st0)
    as [[r st'] t].
  intros (_ & H & _). exact H.
Defined.

(** The two-page walk returns the comments of its two root pages. *)
Lemma root_pages_on_mock :
  let '(r, _, t) :=
    get_note_all_comments URL true mock_sign mock_extract_offset mock_extract_comments
      (script two_pages) 5 answer 1 None st0 in
  r = Return [c "c1"; c "c2"; c "c3"] /\
  [c "c1"; c "c2"; c "c3"]
  = concat (map (comments_of mock_extract_comments answer)
              (filter (fun p => py_truthy p = true) (payloads_of t))).
Proof.
  generalize (result_is_the_root_pages URL true mock_sign mock_extract_offset
                mock_extract_comments (script two_pages) 5 answer 1 None st0).
  destruct (get_note_all_comments URL true mock_sign mock_extract_offset
              mock_extract_comments (script two_pages) 5 answer 1 None st0)
    as [[r st'] t] eqn:Hrun.
  intros [_ H].
  assert (r = Return [c "c1"; c "c2"; c "c3"]) as Hr.
  { vm_compute in Hrun. by injection Hrun as <- _ _. }
  split; [exact Hr | by apply H].
Defined.

(** The two-page walk with a sink: two calls, and the result is what they
    delivered. *)
Lemma sink_calls_on_mock :
  let '(r, _, t) :=
    get_note_all_comments URL true mock_sign mock_extract_offset mock_extract_comments
      (script two_pages) 5 answer 1 (Some (fun _ => None)) st0 in
  callbacks_of t = [([c "c1"; c "c2"], []); ([c "c3"], [c "c1"; c "c2"])] /\
  r = Return (concat (map fst (callbacks_of t))).
Proof.
  generalize (sink_gets_nonempty_pages_first URL true mock_sign mock_extract_offset
                mock_extract_comments (script two_pages) 5 answer 1
                (Some (fun _ => None)) st0).
  destruct (get_note_all_comments URL true mock_sign mock_extract_offset
              mock_extract_comments (script two_pages) 5 answer 1
              (Some (fun _ => None)) st0)
    as [[r st'] t] eqn:Hrun.
  intros [(_ & _ & H) _].
  assert (exists res, r = Return res) as [res Hr].
  { vm_compute in Hrun. injection Hrun as <- _ _. by eexists. }
  split.
  - vm_compute in Hrun. by injection Hrun as _ _ <-.
  - rewrite Hr. f_equal. apply H; [exact Hr | by eexists].
Defined.

End Checks.

(** ** The further properties at work on the mocked session *)

Module MoreChecks.
Import Fixture.

Lemma st0_signs : can_sign mock_sign st0.
Proof.
  split.
  - exists "abc". split; [reflexivity | discriminate].
  - exists "d_c0=abc". split; [reflexivity|].
    intros url. eexists _, _, _. split_and!; reflexivity.
Defined.

(** A probe that is answered 403 three times. *)
Lemma pong_on_forbidden_session :
  exists st' t,
    pong URL mock_sign (script three_403) st0 = (Return false, st', t) /\
    length (requests_of t) = 3 /\ waits_of t = [1%Z; 1%Z] /\ sent st' = 3.
Proof.
  destruct (pong_false_on_dead_session URL mock_sign (script three_403) st0) as [_ H].
  apply H; [exact st0_signs|].
  intros [|[|[|i]]] Hi; try lia; eexists; split; reflexivity.
Defined.

(** New cookies, and the next request carries them. *)
Lemma fresh_cookie_on_mock :
  exists st1,
    update_cookies "d_c0=new" {["d_c0" := "new"]} st0 = (Return tt, st1, []) /\
    cookie_dict st1 = {["d_c0" := "new"]} /\
    heap st1 !!! 0 = <["cookie" := "d_c0=new"]> base_headers.
Proof.
  destruct (update_cookies_reaches_next_request URL mock_sign (script two_pages)
              "d_c0=new" {["d_c0" := "new"]} "/api/v4/me" None st0)
    as (st1 & H1 & H2 & _ & H4 & _).
  { simpl. lia. }
  exists st1. split_and!; [exact H1 | exact H2 | exact H4].
Defined.

(** One page, then a page without comments that is not marked [is_end]. *)
Lemma empty_page_on_mock :
  exists st' t,
    get_note_all_comments URL true mock_sign mock_extract_offset mock_extract_comments
      (script [ok (page ["c1"; "c2"] "o1" false); ok (page [] "o2" false)])
      5 answer 1 None st0
    = (Return [c "c1"; c "c2"], st', t) /\
    requests_of t = [root_get ""; root_get "o1"] /\
    sent st' = 2.
Proof.
  apply (empty_page_ends_the_walk URL true mock_sign mock_extract_offset
           mock_extract_comments
           (script [ok (page ["c1"; "c2"] "o1" false); ok (page [] "o2" false)])
           answer 1 None [page ["c1"; "c2"] "o1" false] (page [] "o2" false) 5 st0).
  - exact st0_signs.
  - apply Forall_cons. split; [|constructor].
    split_and!; [reflexivity | reflexivity | discriminate].
  - reflexivity.
  - reflexivity.
  - intros [|[|i]] p; simpl; intros [= <-]; eexists; split_and!; reflexivity.
  - split.
    + repeat (apply Forall_cons; split; [intros f [=]|]). constructor.
    + right. vm_compute. repeat constructor.
  - simpl. lia.
Defined.


(** A sink that raises on the first page. *)
Lemma failing_sink_on_mock :
  exists st' t,
    get_note_all_comments URL true mock_sign mock_extract_offset mock_extract_comments
      (script two_pages) 5 answer 1 (Some failing_sink) st0
    = (Raise (ForeignError "sink failed"), st', t) /\
    last t = Some (EvCallback [c "c1"; c "c2"] []) /\
    requests_of t = [root_get ""] /\
    sent st' = 1.
Proof.
  apply (sink_failure_aborts_the_walk URL true mock_sign mock_extract_offset
           mock_extract_comments (script two_pages) answer 1 failing_sink []
           (page ["c1"; "c2"] "o1" false) (ForeignError "sink failed") 5 st0).
  - exact st0_signs.
  - constructor.
  - reflexivity.
  - discriminate.
  - intros [|i] p; simpl; intros [= <-]; eexists; split_and!; reflexivity.
  - split; [constructor | right; constructor].
  - reflexivity.
  - simpl. lia.
Defined.

(** A server that never says [is_end]: the walk is still running after
    seven turns. *)
Lemma endless_server_on_mock :
  exists st' t,
    get_note_all_comments URL true mock_sign mock_extract_offset mock_extract_comments
      (fun _ => ok (page ["c1"] "o1" false)) 7 answer 1 None st0
    = (OutOfFuel, st', t) /\
    length (requests_of t) = 7 /\ sent st' = 7.
Proof.
  apply (walk_runs_while_server_goes_on URL true mock_sign mock_extract_offset
           mock_extract_comments (fun _ => ok (page ["c1"] "o1" false)) answer 1 None
           (fun _ => page ["c1"] "o1" false) 7 st0).
  - exact st0_signs.
  - intros i. split_and!; [reflexivity | reflexivity | discriminate].
  - intros i. eexists. split_and!; reflexivity.
  - intros i f [=].
  - right. intros i. vm_compute. repeat constructor.
Defined.

(** Two parents, the first with two pages of replies, the second without
    replies. *)
Lemma replies_on_mock :
  exists st' t,
    get_comments_all_sub_comments URL true mock_sign mock_extract_offset
      mock_extract_comments (script [ok replies_1; ok replies_2]) 5 answer
      [parent_p1; parent_p2] 1 None st0
    = (Return [c "r1"; c "r2"], st', t) /\
    requests_of t = [child_get "p1" ""; child_get "p1" "co1"] /\
    sent st' = 2.
Proof.
  apply (child_walk_collects_all_replies URL true mock_sign mock_extract_offset
           mock_extract_comments (script [ok replies_1; ok replies_2]) answer 1 None 5
           replies_plan st0).
  - reflexivity.
  - exact st0_signs.
  - apply Forall_cons. split; [|apply Forall_cons; split; [|constructor]].
    + intros _. split_and!.
      * apply Forall_cons. split; [|constructor].
        split_and!; [reflexivity | reflexivity | discriminate].
      * split; reflexivity.
      * repeat (apply Forall_cons; split; [intros f [=]|]). constructor.
      * simpl. lia.
    + intros [=].
  - intros [|[|i]] p; simpl; intros [= <-]; eexists; split_and!; reflexivity.
Defined.

(** The two walks together: a root page, then the replies of its first
    comment. *)
Lemma whole_tree_on_mock :
  exists st' t,
    get_note_all_comments URL true mock_sign mock_extract_offset mock_extract_comments
      (script [ok root_page_with_replies; ok replies_1; ok replies_2]) 9 answer 1 None st0
    = (Return [parent_p1; parent_p2], st', t) /\
    requests_of t = [root_get ""] /\
    sent st' = 3.
Proof.
  apply (whole_tree_is_walked URL true mock_sign mock_extract_offset
           mock_extract_comments
           (script [ok root_page_with_replies; ok replies_1; ok replies_2]) answer 1 None
           5 [] (root_page_with_replies, replies_plan) 9 st0).
  - reflexivity.
  - exact st0_signs.
  - constructor.
  - split_and!; [reflexivity | reflexivity | discriminate | reflexivity | intros f [=] |].
    apply Forall_cons. split; [|apply Forall_cons; split; [|constructor]].
    + intros _. split_and!.
      * apply Forall_cons. split; [|constructor].
        split_and!; [reflexivity | reflexivity | discriminate].
      * split; reflexivity.
      * repeat (apply Forall_cons; split; [intros f [=]|]). constructor.
      * simpl. lia.
    + intros [=].
  - intros [|[|[|i]]] p; simpl; intros [= <-]; eexists; split_and!; reflexivity.
  - simpl. lia.
Defined.

(** A search that is answered 404. *)
Lemma search_not_found_on_mock :
  exists st1 t,
    get_note_by_keyword URL mock_sign (script [status 404 ""])
      (fun _ => []) "rocq & coq" 2 20 "" "" "" st0
    = (Return [], st1, t) /\
    sent st1 = 1.
Proof.
  destruct (search_is_one_signed_get URL mock_sign (script [status 404 ""])
              (fun _ => []) "rocq & coq" 2 20 "" "" "" st0 (JDict []))
    as (st1 & t & Hrun & _ & _ & Hsent & _).
  - exact st0_signs.
  - reflexivity.
  - exists st1, t. split; [exact Hrun | exact Hsent].
Defined.

(** A 200 whose JSON is a list. *)
Lemma json_list_is_an_attribute_error :
  interpret false {| status_code := 200; text := "[]"; json_body := Some (JList []) |}
  = inl AttributeError.
Proof.
  destruct (attempt_reads_response
              {| status_code := 200; text := "[]"; json_body := Some (JList []) |})
    as [_ H].
  destruct (H eq_refl) as (_ & _ & Hlist & _).
  by apply (Hlist (JList [])).
Defined.


(** The probe on the mocked session, answered with a user. *)
Lemma get_user_on_mock :
  let '(r, st', t) := get URL mock_sign (script [ok user_payload]) "/api/v4/me" None st0 in
  r = Return user_payload /\ is_dict user_payload = true.
Proof.
  generalize (get_returns_only_dicts URL mock_sign (script [ok user_payload])
                "/api/v4/me" None st0).
  destruct (get URL mock_sign (script [ok user_payload]) "/api/v4/me" None st0)
    as [[r st'] t] eqn:Hrun.
  intros H.
  assert (r = Return user_payload) as Hr.
  { vm_compute in Hrun. by injection Hrun as <- _ _. }
  split; [exact Hr|]. by destruct (H _ Hr) as [? _].
Defined.

End MoreChecks.
